(** * Request decoding and validation (package main, main.go)

    A shallow embedding of the generic field extraction, type coercion and
    validation pipeline of [ValidateRequest], together with the two custom
    validation rules registered in [init] and the message table of
    [getValidationMessage].

    Go strings are byte sequences: they are modelled as [string] (a list of
    8-bit [ascii] bytes).  [uint64] and [int] values are modelled as [Z],
    with the wrap-around of the machine arithmetic written out where the
    code relies on it.  Maps ([url.Values], [mux.Vars], the [map] of the
    [unique] rule) are [gmap]/[gset] of stdpp. *)

From Stdlib Require Import ZArith Ascii String Sorted.
From stdpp Require Import gmap strings list.

Local Open Scope Z_scope.

(** ** Bytes *)

Definition code (c : ascii) : Z := Z.of_N (N_of_ascii c).
Definition byte_of (z : Z) : ascii := ascii_of_N (Z.to_N z).

Definition comma : ascii := byte_of 44.

(** ** Package [strings] of the Go standard library *)

Module strings.

(** [unicode.IsSpace] on the runes below [utf8.RuneSelf]:
    '\t', '\n', '\v', '\f', '\r' and ' '. *)
Definition is_space1 (c : ascii) : bool :=
  ((9 <=? code c) && (code c <=? 13)) || (code c =? 32).

(** Two-byte UTF-8 encodings of white space: U+0085 (NEL), U+00A0 (NBSP). *)
Definition is_space2 (c1 c2 : ascii) : bool :=
  (code c1 =? 194) && ((code c2 =? 133) || (code c2 =? 160)).

(** Three-byte UTF-8 encodings of white space: U+1680, U+2000..U+200A,
    U+2028, U+2029, U+202F, U+205F, U+3000. *)
Definition is_space3 (c1 c2 c3 : ascii) : bool :=
  ((code c1 =? 225) && (code c2 =? 154) && (code c3 =? 128))
  || ((code c1 =? 226) && (code c2 =? 128)
      && (((128 <=? code c3) && (code c3 <=? 138))
          || (code c3 =? 168) || (code c3 =? 169) || (code c3 =? 175)))
  || ((code c1 =? 226) && (code c2 =? 129) && (code c3 =? 159))
  || ((code c1 =? 227) && (code c2 =? 128) && (code c3 =? 128)).

(** [s] is exactly the UTF-8 encoding of one white-space rune. *)
Definition space_rune (s : string) : bool :=
  match s with
  | String c1 EmptyString => is_space1 c1
  | String c1 (String c2 EmptyString) => is_space2 c1 c2
  | String c1 (String c2 (String c3 EmptyString)) => is_space3 c1 c2 c3
  | _ => false
  end.

(** [TrimLeftFunc(s, unicode.IsSpace)]: decode runes from the left and
    drop them while they are white space.  A byte sequence that is not a
    valid encoding decodes to [utf8.RuneError], which is not white space. *)
Fixpoint TrimLeft (s : string) : string :=
  match s with
  | EmptyString => EmptyString
  | String c1 s1 =>
      if is_space1 c1 then TrimLeft s1
      else match s1 with
           | String c2 s2 =>
               if is_space2 c1 c2 then TrimLeft s2
               else match s2 with
                    | String c3 s3 =>
                        if is_space3 c1 c2 c3 then TrimLeft s3 else s
                    | EmptyString => s
                    end
           | EmptyString => s
           end
  end.

(** [TrimRightFunc(s, unicode.IsSpace)]: decode runes from the right and
    drop them while they are white space.  The trimmed tail [t] of [s']
    ends in no white-space rune, so [String c t] ends in one only when it
    is one as a whole. *)
Fixpoint TrimRight (s : string) : string :=
  match s with
  | EmptyString => EmptyString
  | String c s' =>
      let t := TrimRight s' in
      if space_rune (String c t) then EmptyString else String c t
  end.

(** [strings.TrimSpace(s)] *)
Definition TrimSpace (s : string) : string := TrimRight (TrimLeft s).

(** [strings.Split(s, sep)] for a one-byte separator (the code only splits
    on [","]): one more element than [s] has separators; [Split "" sep]
    is the one-element slice [[""]]. *)
Fixpoint Split (s : string) (sep : ascii) : list string :=
  match s with
  | EmptyString => [EmptyString]
  | String c s' =>
      if Ascii.eqb c sep then EmptyString :: Split s' sep
      else match Split s' sep with
           | h :: t => String c h :: t
           | [] => [String c EmptyString]
           end
  end.

(** [strings.Replace(s, old, new, -1)] for a one-byte [old]. *)
Fixpoint Replace (s : string) (old : ascii) (new : string) : string :=
  match s with
  | EmptyString => EmptyString
  | String c s' =>
      if Ascii.eqb c old then new +:+ Replace s' old new
      else String c (Replace s' old new)
  end.

(** [strings.Join(elems, sep)] *)
Fixpoint Join (elems : list string) (sep : string) : string :=
  match elems with
  | [] => EmptyString
  | [e] => e
  | e :: rest => e +:+ sep +:+ Join rest sep
  end.

End strings.

(** ** Package [strconv] of the Go standard library *)

Module strconv.

Definition maxUint64 : Z := 2 ^ 64 - 1.

Definition is_digit (c : ascii) : bool := (48 <=? code c) && (code c <=? 57).

(** The digit loop of [ParseUint(s, 10, 64)].  In base 10 a letter gives a
    digit value of at least 10 and is a syntax error like any other
    non-digit byte; [n*10] cannot overflow below the cutoff, [n1] is the
    64-bit sum, whose wrap-around the code detects with [n1 < n]. *)
Fixpoint ParseUint_loop (s : string) (n : Z) : option Z :=
  match s with
  | EmptyString => Some n
  | String c s' =>
      if is_digit c then
        let d := code c - 48 in
        if maxUint64 / 10 + 1 <=? n then None
        else
          let n := n * 10 in
          let n1 := (n + d) mod 2 ^ 64 in
          if (n1 <? n) || (maxUint64 <? n1) then None
          else ParseUint_loop s' n1
      else None
  end.

(** [ParseUint(s, 10, 64)]; [None] stands for [err != nil]. *)
Definition ParseUint (s : string) : option Z :=
  match s with
  | EmptyString => None
  | _ => ParseUint_loop s 0
  end.

(** Conversion [int64(u)] of a 64-bit pattern. *)
Definition to_int64 (z : Z) : Z := (z + 2 ^ 63) mod 2 ^ 64 - 2 ^ 63.

(** [ParseInt(s, 10, 64)]; [None] stands for [err != nil]. *)
Definition ParseInt (s : string) : option Z :=
  match s with
  | EmptyString => None
  | String c s' =>
      let neg := Ascii.eqb c (byte_of 45) in
      let s1 := if Ascii.eqb c (byte_of 43) || neg then s' else s in
      match ParseUint s1 with
      | None => None
      | Some un =>
          let cutoff := 2 ^ 63 in
          if negb neg && (cutoff <=? un) then None
          else if neg && (cutoff <? un) then None
          else
            let n := to_int64 un in
            Some (if neg then to_int64 (- n) else n)
      end
  end.

Definition digit_char (d : Z) : ascii := byte_of (48 + d).

(** The digit loop of [formatBits] in base 10: digits are produced from
    the least significant one, in front of [acc]. *)
Fixpoint formatBits (fuel : nat) (u : Z) (acc : string) : string :=
  match fuel with
  | O => acc
  | S fuel' =>
      if u <? 10 then String (digit_char u) acc
      else formatBits fuel' (u / 10) (String (digit_char (u mod 10)) acc)
  end.

(** [FormatUint(u, 10)] for [0 <= u]; a number has no more decimal digits
    than binary ones. *)
Definition FormatUint (u : Z) : string :=
  formatBits (S (Z.to_nat (Z.log2 u))) u EmptyString.

(** [FormatInt(i, 10)] *)
Definition FormatInt (i : Z) : string :=
  if i <? 0 then String (byte_of 45) (FormatUint (- i)) else FormatUint i.

End strconv.

(** ** Package [reflect]: kinds, types and the values the code handles *)

Module reflect.

Inductive Kind : Set :=
| Invalid | Bool
| Int | Int8 | Int16 | Int32 | Int64
| Uint | Uint8 | Uint16 | Uint32 | Uint64 | Uintptr
| Float32 | Float64 | Complex64 | Complex128
| Array | Chan | Func | Interface | Map | Pointer
| Slice | String | Struct | UnsafePointer.

Inductive Type_ : Set :=
| Basic (k : Kind)
| SliceOf (elem : Type_).

Definition KindOf (t : Type_) : Kind :=
  match t with
  | Basic k => k
  | SliceOf _ => Slice
  end.

(** [t.Elem()] of a slice type. *)
Definition Elem (t : Type_) : Type_ :=
  match t with
  | SliceOf e => e
  | Basic _ => Basic Invalid
  end.

End reflect.

(** The dynamic values met by the pipeline and by the rules
    ([fl.Field().Interface()], [e.Value()]). *)
Inductive GoValue : Type :=
| VString (s : string)
| VInt (i : Z)
| VUint (u : Z)
| VStrings (l : list string)
| VUints (l : list Z).

Definition ValueKind (v : GoValue) : reflect.Kind :=
  match v with
  | VString _ => reflect.String
  | VInt _ => reflect.Int
  | VUint _ => reflect.Uint64
  | VStrings _ | VUints _ => reflect.Slice
  end.

(** The elements [v.Index(0)], ..., [v.Index(v.Len()-1)] of a slice value. *)
Definition Elements (v : GoValue) : list GoValue :=
  match v with
  | VStrings l => VString <$> l
  | VUints l => VUint <$> l
  | _ => []
  end.

(** ** Package [fmt] *)

Module fmt.

Definition Sprint_scalar (v : GoValue) : string :=
  match v with
  | VString s => s
  | VInt i => strconv.FormatInt i
  | VUint u => strconv.FormatUint u
  | _ => EmptyString
  end.

(** [fmt.Sprintf("%v", v)]: a string prints as itself, a number in
    decimal, a slice as its elements between brackets, space separated. *)
Definition Sprintf_v (v : GoValue) : string :=
  match v with
  | VStrings _ | VUints _ =>
      "[" +:+ strings.Join (Sprint_scalar <$> Elements v) " " +:+ "]"
  | _ => Sprint_scalar v
  end.

(** [fmt.Sprintf("%d", i)] for an [int]. *)
Definition Sprintf_d (i : Z) : string := strconv.FormatInt i.

End fmt.

(** ** The data model of main.go *)

(** [ValidationError] (lines 61-65). *)
Record ValidationError : Type := mkValidationError {
  ve_Field : string;
  ve_Message : string;
  ve_Value : string
}.

(** [ErrorResponse] (lines 68-72). *)
Record ErrorResponse : Type := mkErrorResponse {
  er_Code : Z;
  er_Message : string;
  er_Errors : list ValidationError
}.

(** [RequestParser] is a string type with three named constants. *)
Definition RequestParser : Type := string.
Definition BodyParser : RequestParser := "body".
Definition QueryParser : RequestParser := "query".
Definition ParamParser : RequestParser := "param".

(** [ValidationConfig] (lines 84-90). *)
Record ValidationConfig : Type := mkValidationConfig {
  FieldName : string;
  Parser : RequestParser;
  Required : bool;
  Default : string;
  ValidateTags : string
}.

(** [GenericRequest] (lines 93-108). *)
Record GenericRequest : Type := mkGenericRequest {
  Name : string;
  Email : string;
  Tags : list string;
  IDs : list Z;
  UserID : Z;
  Rating : Z;
  validationGroup : string
}.

(** [&GenericRequest{validationGroup: group}]: every other field has its
    zero value. *)
Definition newGenericRequest (group : string) : GenericRequest :=
  mkGenericRequest "" "" [] [] 0 0 group.

(** What the handler reads of [*http.Request]: the parsed query
    ([r.URL.Query()], a [url.Values]), the route variables ([mux.Vars(r)])
    and the body, which no line of the handler reads. *)
Record Request : Type := mkRequest {
  URLQuery : gmap string (list string);
  MuxVars : gmap string string;
  Body : string
}.

(** [url.Values.Get]: the first value of the key, or [""]. *)
Definition Values_Get (v : gmap string (list string)) (key : string) : string :=
  match v !! key with
  | Some (x :: _) => x
  | _ => EmptyString
  end.

(** [url.Values.Has] *)
Definition Values_Has (v : gmap string (list string)) (key : string) : bool :=
  match v !! key with
  | Some _ => true
  | None => false
  end.

(** ** Execution with panics *)

Inductive exec (A : Type) : Type :=
| Done (a : A)
| Panic (msg : string).
Arguments Done {A} a.
Arguments Panic {A} msg.

#[global] Instance exec_ret : MRet exec := fun A a => Done a.

#[global] Instance exec_bind : MBind exec := fun A B k m =>
  match m with
  | Done a => k a
  | Panic msg => Panic msg
  end.

(** ** Reflective access to the fields of [GenericRequest] *)

Inductive FieldId : Set :=
| F_Name | F_Email | F_Tags | F_IDs | F_UserID | F_Rating | F_validationGroup.

(** [reflect.ValueOf(req).Elem().FieldByName(name)]; [None] is the zero
    [Value], for which [IsValid()] is false.  The lookup also finds the
    unexported field. *)
Definition FieldByName (name : string) : option FieldId :=
  if String.eqb name "Name" then Some F_Name
  else if String.eqb name "Email" then Some F_Email
  else if String.eqb name "Tags" then Some F_Tags
  else if String.eqb name "IDs" then Some F_IDs
  else if String.eqb name "UserID" then Some F_UserID
  else if String.eqb name "Rating" then Some F_Rating
  else if String.eqb name "validationGroup" then Some F_validationGroup
  else None.

Definition FieldType (f : FieldId) : reflect.Type_ :=
  match f with
  | F_Name | F_Email | F_validationGroup => reflect.Basic reflect.String
  | F_Tags => reflect.SliceOf (reflect.Basic reflect.String)
  | F_IDs => reflect.SliceOf (reflect.Basic reflect.Uint64)
  | F_UserID => reflect.Basic reflect.Uint64
  | F_Rating => reflect.Basic reflect.Int
  end.

(** A value obtained through an unexported field is read-only. *)
Definition CanSet (f : FieldId) : bool :=
  match f with
  | F_validationGroup => false
  | _ => true
  end.

(** The record with one field assigned. *)
Definition with_Name (s : string) (req : GenericRequest) : GenericRequest :=
  mkGenericRequest s (Email req) (Tags req) (IDs req) (UserID req) (Rating req)
    (validationGroup req).
Definition with_Email (s : string) (req : GenericRequest) : GenericRequest :=
  mkGenericRequest (Name req) s (Tags req) (IDs req) (UserID req) (Rating req)
    (validationGroup req).
Definition with_Tags (l : list string) (req : GenericRequest) : GenericRequest :=
  mkGenericRequest (Name req) (Email req) l (IDs req) (UserID req) (Rating req)
    (validationGroup req).
Definition with_IDs (l : list Z) (req : GenericRequest) : GenericRequest :=
  mkGenericRequest (Name req) (Email req) (Tags req) l (UserID req) (Rating req)
    (validationGroup req).
Definition with_UserID (u : Z) (req : GenericRequest) : GenericRequest :=
  mkGenericRequest (Name req) (Email req) (Tags req) (IDs req) u (Rating req)
    (validationGroup req).
Definition with_Rating (i : Z) (req : GenericRequest) : GenericRequest :=
  mkGenericRequest (Name req) (Email req) (Tags req) (IDs req) (UserID req) i
    (validationGroup req).

(** [field.Set(v)], [field.SetString(x)], [field.SetInt(x)],
    [field.SetUint(x)]: they panic on a read-only value and on a value of
    another type than the field's. *)
Definition Set_ (f : FieldId) (v : GoValue) (req : GenericRequest)
  : exec GenericRequest :=
  if negb (CanSet f) then
    Panic "reflect: reflect.Value.Set using value obtained using unexported field"
  else
    match f, v with
    | F_Name, VString s => Done (with_Name s req)
    | F_Email, VString s => Done (with_Email s req)
    | F_Tags, VStrings l => Done (with_Tags l req)
    | F_IDs, VUints l => Done (with_IDs l req)
    | F_UserID, VUint u => Done (with_UserID u req)
    | F_Rating, VInt i => Done (with_Rating i req)
    | _, _ => Panic "reflect: value is not assignable to the field type"
    end.

Definition SetString (f : FieldId) (x : string) := Set_ f (VString x).
Definition SetInt (f : FieldId) (x : Z) := Set_ f (VInt x).
Definition SetUint (f : FieldId) (x : Z) := Set_ f (VUint x).

(** ** [getRawValue] (lines 190-204) *)

Definition getRawValue (r : Request) (cfg : ValidationConfig) : string * bool :=
  if String.eqb (Parser cfg) BodyParser then
    (EmptyString, false)
  else if String.eqb (Parser cfg) QueryParser then
    (Values_Get (URLQuery r) (FieldName cfg), Values_Has (URLQuery r) (FieldName cfg))
  else if String.eqb (Parser cfg) ParamParser then
    match MuxVars r !! FieldName cfg with
    | Some val => (val, true)
    | None => (EmptyString, false)
    end
  else
    (EmptyString, false).

(** ** [setFieldValue] (lines 206-254) *)

(** The loop of lines 229-232 over [values] from index [i], writing into
    the slice made at line 229. *)
Fixpoint trim_loop (i : nat) (values : list string) (slice : list string)
  : list string :=
  match values with
  | [] => slice
  | v :: rest => trim_loop (S i) rest (<[i := strings.TrimSpace v]> slice)
  end.

(** The loop of lines 236-243; [inl] is the error returned at line 240. *)
Fixpoint parse_loop (i : nat) (values : list string) (slice : list Z)
  : string + list Z :=
  match values with
  | [] => inr slice
  | v :: rest =>
      match strconv.ParseUint (strings.TrimSpace v) with
      | None =>
          inl ("element " +:+ fmt.Sprintf_d (Z.of_nat i + 1)
                 +:+ ": must be positive integer")
      | Some val => parse_loop (S i) rest (<[i := val]> slice)
      end
  end.

(** The result is the updated record and the returned [error] ([None] is
    [nil]). *)
Definition setFieldValue (field : FieldId) (rawValue : string)
    (cfg : ValidationConfig) (req : GenericRequest)
  : exec (GenericRequest * option string) :=
  match reflect.KindOf (FieldType field) with
  | reflect.String =>
      req' ← SetString field rawValue req; Done (req', None)
  | reflect.Int | reflect.Int64 =>
      match strconv.ParseInt rawValue with
      | None => Done (req, Some "must be a valid integer")
      | Some val => req' ← SetInt field val req; Done (req', None)
      end
  | reflect.Uint | reflect.Uint64 =>
      match strconv.ParseUint rawValue with
      | None => Done (req, Some "must be a positive integer")
      | Some val => req' ← SetUint field val req; Done (req', None)
      end
  | reflect.Slice =>
      let values := strings.Split rawValue comma in
      match reflect.KindOf (reflect.Elem (FieldType field)) with
      | reflect.String =>
          let slice := trim_loop 0 values (replicate (length values) EmptyString) in
          req' ← Set_ field (VStrings slice) req; Done (req', None)
      | reflect.Uint64 =>
          match parse_loop 0 values (replicate (length values) 0) with
          | inl err => Done (req, Some err)
          | inr slice =>
              req' ← Set_ field (VUints slice) req; Done (req', None)
          end
      | _ => Done (req, Some "unsupported slice type")
      end
  | _ => Done (req, Some "unsupported field type")
  end.

(** ** The validator library: what the code uses of its interfaces *)

(** [validator.FieldLevel], as seen by a registered rule. *)
Record FieldLevel : Type := mkFieldLevel {
  fl_Param : string;
  fl_Field : GoValue
}.

(** [validator.FieldError], as seen by [getValidationMessage] and by the
    handler. *)
Record FieldError : Type := mkFieldError {
  fe_Tag : string;
  fe_Param : string;
  fe_Kind : reflect.Kind;
  fe_StructField : string;
  fe_Value : GoValue;
  fe_Error : string
}.

(** ** The rules registered in [init] (lines 25-50) *)

(** The loop of lines 29-33. *)
Fixpoint in_loop (values : list string) (fieldValue : string) : bool :=
  match values with
  | [] => false
  | v :: rest => if String.eqb v fieldValue then true else in_loop rest fieldValue
  end.

(** The rule registered under the tag ["in"]. *)
Definition in_rule (fl : FieldLevel) : bool :=
  let values := strings.Split (fl_Param fl) comma in
  let fieldValue := fmt.Sprintf_v (fl_Field fl) in
  in_loop values fieldValue.

(** The loop of lines 41-47 over the elements not yet visited; [unique] is
    the map used as a set. *)
Fixpoint unique_loop (elems : list GoValue) (unique : gset string) : bool :=
  match elems with
  | [] => true
  | e :: rest =>
      let val := fmt.Sprintf_v e in
      if decide (val ∈ unique) then false
      else unique_loop rest ({[val]} ∪ unique)
  end.

(** The rule registered under the tag ["unique"]. *)
Definition unique_rule (fl : FieldLevel) : bool :=
  match ValueKind (fl_Field fl) with
  | reflect.Slice | reflect.Array => unique_loop (Elements (fl_Field fl)) ∅
  | _ => true
  end.

(** ** [getValidationMessage] (lines 256-285) *)

Definition getValidationMessage (e : FieldError) : string :=
  if String.eqb (fe_Tag e) "required" then "This field is required"
  else if String.eqb (fe_Tag e) "min" then
    match fe_Kind e with
    | reflect.String => "Minimum " +:+ fe_Param e +:+ " characters required"
    | reflect.Slice => "At least " +:+ fe_Param e +:+ " items required"
    | _ => "Minimum value is " +:+ fe_Param e
    end
  else if String.eqb (fe_Tag e) "max" then
    match fe_Kind e with
    | reflect.String => "Maximum " +:+ fe_Param e +:+ " characters allowed"
    | reflect.Slice => "Maximum " +:+ fe_Param e +:+ " items allowed"
    | _ => "Maximum value is " +:+ fe_Param e
    end
  else if String.eqb (fe_Tag e) "in" then
    "Must be one of: " +:+ strings.Replace (fe_Param e) comma ", "
  else if String.eqb (fe_Tag e) "unique" then "Contains duplicate values"
  else if String.eqb (fe_Tag e) "dive" then "Invalid element: " +:+ fe_Error e
  else if String.eqb (fe_Tag e) "email" then "Invalid email format"
  else fe_Error e.

(** ** [ValidateRequest] (lines 111-188) *)

Definition StatusOK : Z := 200.
Definition StatusBadRequest : Z := 400.
Definition StatusUnprocessableEntity : Z := 422.

(** What the handler writes: the status code and the JSON document. *)
Inductive Payload : Type :=
| ErrorJSON (e : ErrorResponse)
| ValidJSON (data : GenericRequest).

Record Response : Type := mkResponse {
  StatusCode : Z;
  Written : Payload
}.

(** One run of the handler: the response, or a panic, and the records that
    were handed to [validate.Struct], in order. *)
Record Run : Type := mkRun {
  response : exec Response;
  validated : list GenericRequest
}.

(** The body of the loop of lines 119-145 for one descriptor. *)
Definition parseField (r : Request) (cfg : ValidationConfig)
    (st : GenericRequest * list ValidationError)
  : exec (GenericRequest * list ValidationError) :=
  let '(req, errors) := st in
  match FieldByName (FieldName cfg) with
  | None => Done (req, errors)
  | Some field =>
      let '(rawValue, found) := getRawValue r cfg in
      if negb found then
        if Required cfg then
          Done (req, errors ++
                  [mkValidationError (FieldName cfg) "This field is required" ""])
        else Done (req, errors)
      else
        '(req', err) ← setFieldValue field rawValue cfg req;
        match err with
        | Some msg =>
            Done (req', errors ++ [mkValidationError (FieldName cfg) msg rawValue])
        | None => Done (req', errors)
        end
  end.

(** The loop of lines 119-145. *)
Fixpoint parseFields (r : Request) (configs : list ValidationConfig)
    (st : GenericRequest * list ValidationError)
  : exec (GenericRequest * list ValidationError) :=
  match configs with
  | [] => Done st
  | cfg :: rest => st' ← parseField r cfg st; parseFields r rest st'
  end.

Section Handler.

(** [validate.Struct] of the validator library: the field errors of a
    record, the empty list standing for a [nil] error. *)
Variable validate_Struct : GenericRequest -> list FieldError.

Definition ValidateRequest (configs : list ValidationConfig) (group : string)
    (r : Request) : Run :=
  let req := newGenericRequest group in
  let errors := [] in
  match parseFields r configs (req, errors) with
  | Panic msg => mkRun (Panic msg) []
  | Done (req, errors) =>
      if (0 <? length errors)%nat then
        mkRun (Done (mkResponse StatusBadRequest
                       (ErrorJSON (mkErrorResponse StatusBadRequest
                                     "Invalid request data" errors))))
              []
      else
        match validate_Struct req with
        | (_ :: _) as validationErrors =>
            let verrs :=
              (fun e => mkValidationError (fe_StructField e)
                          (getValidationMessage e)
                          (fmt.Sprintf_v (fe_Value e))) <$> validationErrors in
            mkRun (Done (mkResponse StatusUnprocessableEntity
                           (ErrorJSON (mkErrorResponse StatusUnprocessableEntity
                                         "Validation failed" verrs))))
                  [req]
        | [] =>
            mkRun (Done (mkResponse StatusOK (ValidJSON req))) [req]
        end
  end.

End Handler.

(** * The text unmarshalers (src/unnamed/part_000)

    [Uint64Slice] and [StringSlice] are slice types with an
    [UnmarshalText] method.  A slice is modelled as a list; a [nil] slice
    and an empty one are both the empty list. *)

Module textslices.

(** The error of [fmt.Errorf("invalid uint64 value: %q", part)]: it is
    determined by the part it quotes. *)
Inductive TextError : Type :=
| InvalidUint64 (part : string).

(** The loop of [Uint64Slice.UnmarshalText] (lines 37-48) over the parts
    not yet visited; [u] is the slice built so far. *)
Fixpoint Uint64Slice_loop (parts : list string) (u : list Z)
  : list Z * option TextError :=
  match parts with
  | [] => (u, None)
  | part :: rest =>
      let part := strings.TrimSpace part in
      if String.eqb part "" then Uint64Slice_loop rest u
      else
        match strconv.ParseUint part with
        | None => (u, Some (InvalidUint64 part))
        | Some num => Uint64Slice_loop rest (u ++ [num])
        end
  end.

(** [(u *Uint64Slice) UnmarshalText(text)] (lines 28-50): the new value of
    [*u] and the returned error. *)
Definition Uint64Slice_UnmarshalText (text : string) (u : list Z)
  : list Z * option TextError :=
  if String.eqb text "" then (u, None)
  else Uint64Slice_loop (strings.Split text comma) [].

(** The loop of [StringSlice.UnmarshalText] (lines 60-62): it ranges over
    the slice while it overwrites it; the element at [i] is read before it
    is written, and no other index is written before [i] is read. *)
Fixpoint StringSlice_loop (i : nat) (vals : list string) (s : list string)
  : list string :=
  match vals with
  | [] => s
  | val :: rest => StringSlice_loop (S i) rest (<[i := strings.TrimSpace val]> s)
  end.

(** [(s *StringSlice) UnmarshalText(text)] (lines 58-64): the new value of
    [*s]; the error is always [nil]. *)
Definition StringSlice_UnmarshalText (text : string)
  : list string * option TextError :=
  let s := strings.Split text comma in
  (StringSlice_loop 0 s s, None).

End textslices.

(** * The layered example (main2.go) *)

Module main2.

(** [User] (lines 17-23). *)
Record User : Type := mkUser {
  ID : Z;
  Name : string;
  Email : string;
  Tags : list string;
  Role : string
}.

(** What [mapToStruct] reads of a struct type: for each field its name,
    its [query] tag ([""] when it has none), its type and whether it is
    exported. *)
Record StructField : Type := mkStructField {
  sf_Name : string;
  sf_query : string;
  sf_Type : reflect.Type_;
  sf_exported : bool
}.

(** The fields of [User]: none has a [query] tag. *)
Definition UserType : list StructField :=
  [ mkStructField "ID" "" (reflect.Basic reflect.Uint64) true;
    mkStructField "Name" "" (reflect.Basic reflect.String) true;
    mkStructField "Email" "" (reflect.Basic reflect.String) true;
    mkStructField "Tags" "" (reflect.SliceOf (reflect.Basic reflect.String)) true;
    mkStructField "Role" "" (reflect.Basic reflect.String) true ].

(** The [*strconv.NumError] of a failed parse: the function and the text;
    its cause (syntax or range) is not modelled. *)
Inductive NumError : Type :=
| mkNumError (Func Num : string).

(** An assignment [val.Field(i).Set...(v)]. *)
Definition Write : Type := nat * GoValue.

(** Assigning field [i] appends to the writes done so far, and panics on
    an unexported field. *)
Definition setField (f : StructField) (i : nat) (v : GoValue)
    (writes : list Write) : exec (list Write) :=
  if sf_exported f then Done (writes ++ [(i, v)])
  else Panic "reflect: reflect.Value.Set using value obtained using unexported field".

(** The loop of [mapToStruct] (lines 109-141) from field [i] on.  The
    struct is changed by the writes, in order, and by nothing else. *)
Fixpoint mapToStruct_loop (m : gmap string string) (i : nat)
    (fields : list StructField) (writes : list Write)
  : exec (list Write * option NumError) :=
  match fields with
  | [] => Done (writes, None)
  | structField :: rest =>
      let tag := sf_query structField in
      if String.eqb tag "" then mapToStruct_loop m (S i) rest writes
      else
        match m !! tag with
        | None => mapToStruct_loop m (S i) rest writes
        | Some value =>
            match reflect.KindOf (sf_Type structField) with
            | reflect.String =>
                writes' ← setField structField i (VString value) writes;
                mapToStruct_loop m (S i) rest writes'
            | reflect.Int | reflect.Int64 =>
                match strconv.ParseInt value with
                | None => Done (writes, Some (mkNumError "ParseInt" value))
                | Some num =>
                    writes' ← setField structField i (VInt num) writes;
                    mapToStruct_loop m (S i) rest writes'
                end
            | reflect.Uint | reflect.Uint64 =>
                match strconv.ParseUint value with
                | None => Done (writes, Some (mkNumError "ParseUint" value))
                | Some num =>
                    writes' ← setField structField i (VUint num) writes;
                    mapToStruct_loop m (S i) rest writes'
                end
            | reflect.Slice =>
                let values := strings.Split value comma in
                match reflect.KindOf (reflect.Elem (sf_Type structField)) with
                | reflect.String =>
                    writes' ← setField structField i (VStrings values) writes;
                    mapToStruct_loop m (S i) rest writes'
                | _ => mapToStruct_loop m (S i) rest writes
                end
            | _ => mapToStruct_loop m (S i) rest writes
            end
        end
  end.

(** [mapToStruct(m, dest)] (lines 105-143) for a [dest] of the struct type
    [fields]. *)
Definition mapToStruct (m : gmap string string) (fields : list StructField)
  : exec (list Write * option NumError) :=
  mapToStruct_loop m 0 fields [].

(** [*fiber.Error] *)
Record FiberError : Type := mkFiberError {
  fiber_Code : Z;
  fiber_Message : string
}.

(** [(p *RequestParser) ParseQuery(dest)] (lines 97-103); [queries] is
    [p.Ctx.Queries()]. *)
Definition ParseQuery (queries : gmap string string) (fields : list StructField)
  : exec (list Write * option FiberError) :=
  '(writes, err) ← mapToStruct queries fields;
  match err with
  | Some _ => Done (writes, Some (mkFiberError 400 "Invalid query parameters"))
  | None => Done (writes, None)
  end.

(** [getErrorMessage] (lines 59-80). *)
Definition getErrorMessage (e : FieldError) : string :=
  if String.eqb (fe_Tag e) "required" then "This field is required"
  else if String.eqb (fe_Tag e) "min" then
    match fe_Kind e with
    | reflect.String => "Must be at least " +:+ fe_Param e +:+ " characters"
    | _ => "Must be at least " +:+ fe_Param e
    end
  else if String.eqb (fe_Tag e) "max" then
    match fe_Kind e with
    | reflect.String => "Must be at most " +:+ fe_Param e +:+ " characters"
    | _ => "Must be at most " +:+ fe_Param e
    end
  else if String.eqb (fe_Tag e) "email" then "Invalid email format"
  else if String.eqb (fe_Tag e) "in" then
    "Must be one of: " +:+ strings.Replace (fe_Param e) comma ", "
  else fe_Error e.

(** [(m *MockUserService) GetUser(id)] (lines 244-247): the user and a
    [nil] error. *)
Definition MockUserService_GetUser (id : Z) : option User :=
  Some (mkUser id "Test User" "" [] "").

(** What a handler returns: an error for the framework, or the status and
    the JSON document it wrote. *)
Inductive HandlerResult : Type :=
| HandlerError (e : FiberError)
| HandlerJSON (status : Z) (user : User).

Section Handlers.

(** [h.Service.GetUser]: the user, or [None] for an error. *)
Variable Service_GetUser : Z -> option User.

(** The handler of [(h *UserHandler) GetUser()] (lines 184-201);
    [param_id] is [c.Params("id")]. *)
Definition GetUser (param_id : string) : HandlerResult :=
  match strconv.ParseUint param_id with
  | None => HandlerError (mkFiberError 400 "Invalid user ID")
  | Some id =>
      match Service_GetUser id with
      | None => HandlerError (mkFiberError 404 "User not found")
      | Some user => HandlerJSON 200 user
      end
  end.

End Handlers.

End main2.

(** ** Auxiliary notions used to state the properties *)

(** Every byte of [s] satisfies [P]. *)
Fixpoint all_bytes (P : ascii -> bool) (s : string) : bool :=
  match s with
  | EmptyString => true
  | String c s' => P c && all_bytes P s'
  end.

(** [s] holds no byte [sep]; the number of bytes [sep] in [s]. *)
Definition no_byte (sep : ascii) (s : string) : bool :=
  all_bytes (fun c => negb (Ascii.eqb c sep)) s.

Fixpoint count_byte (sep : ascii) (s : string) : nat :=
  match s with
  | EmptyString => O
  | String c s' => ((if Ascii.eqb c sep then 1 else 0) + count_byte sep s')%nat
  end.

(** What the loop of lines 236-243 does with one element, and the error of
    line 240 for the element at 1-based position [n]. *)
Definition parseElem (v : string) : option Z :=
  strconv.ParseUint (strings.TrimSpace v).

Definition elementError (n : nat) : string :=
  "element " +:+ fmt.Sprintf_d (Z.of_nat n) +:+ ": must be positive integer".

(** The error [setFieldValue] returns for a raw text; it does not depend on
    the record (see [setFieldValue_Done]). *)
Definition coerceError (field : FieldId) (rawValue : string) : option string :=
  match setFieldValue field rawValue
          (mkValidationConfig "" "" false "" "") (newGenericRequest "") with
  | Done (_, err) => err
  | Panic _ => None
  end.

(** The error of line 129. *)
Definition requiredError (cfg : ValidationConfig) : ValidationError :=
  mkValidationError (FieldName cfg) "This field is required" "".

(** The errors one descriptor adds to [errors] in the loop of lines 119-145:
    none or one. *)
Definition fieldErrors (r : Request) (cfg : ValidationConfig)
  : list ValidationError :=
  match FieldByName (FieldName cfg) with
  | None => []
  | Some field =>
      let '(rawValue, found) := getRawValue r cfg in
      if negb found then
        if Required cfg then [requiredError cfg] else []
      else
        match coerceError field rawValue with
        | Some msg => [mkValidationError (FieldName cfg) msg rawValue]
        | None => []
        end
  end.

(** The descriptor does not make the loop assign the unexported field: it
    does not name it, or its raw value is not found. *)
Definition writable (r : Request) (cfg : ValidationConfig) : Prop :=
  FieldName cfg = "validationGroup" -> (getRawValue r cfg).2 = false.

(** The 400 response of lines 149-154. *)
Definition badRequest (errors : list ValidationError) : Response :=
  mkResponse StatusBadRequest
    (ErrorJSON (mkErrorResponse StatusBadRequest "Invalid request data" errors)).

(** ** The descriptor tables of [main] (lines 292-350) and sample inputs *)

Definition createUserConfigs : list ValidationConfig :=
  [ mkValidationConfig "Name" BodyParser true "" "required,min=3,max=50";
    mkValidationConfig "Email" BodyParser true "" "required,email";
    mkValidationConfig "Tags" BodyParser false "" "omitempty,unique,dive,min=2,max=20" ].

Definition updateUserConfigs : list ValidationConfig :=
  [ mkValidationConfig "UserID" ParamParser true "" "required,min=1";
    mkValidationConfig "Name" BodyParser false "" "omitempty,min=3,max=50";
    mkValidationConfig "IDs" QueryParser false "" "omitempty,unique,dive,min=1" ].

Definition ratingConfig : ValidationConfig :=
  mkValidationConfig "Rating" QueryParser false "5" "omitempty,min=1,max=5".

Definition searchConfigs : list ValidationConfig :=
  [ mkValidationConfig "Tags" QueryParser true ""
      "required,min=1,max=5,dive,in=tech,sports,politics";
    ratingConfig ].

(** A validator that reports no error. *)
Definition noFieldErrors : GenericRequest -> list FieldError := fun _ => [].

(** A request with the given query values, no route variable, and a body. *)
Definition queryRequest (q : list (string * list string)) (body : string) : Request :=
  mkRequest (list_to_map q) ∅ body.

(** A descriptor naming no field of [GenericRequest]. *)
Definition unknownConfig (parser : RequestParser) : ValidationConfig :=
  mkValidationConfig "Nickname" parser true "" "required".

(** A descriptor naming the unexported field of [GenericRequest]. *)
Definition groupConfig : ValidationConfig :=
  mkValidationConfig "validationGroup" QueryParser false "" "".

(** The string a client gets back for a coerced unsigned-integer list
    written again as text: the decimal elements, comma-joined. *)
Definition reserialize (l : list Z) : string :=
  strings.Join (strconv.FormatUint <$> l) ",".

(** The number a string of decimal digits denotes, read after the digits
    worth [n]. *)
Fixpoint decimal_from (n : Z) (s : string) : Z :=
  match s with
  | EmptyString => n
  | String c s' => decimal_from (n * 10 + (code c - 48)) s'
  end.

Definition decimal (s : string) : Z := decimal_from 0 s.

(** [s] is a decimal literal of a [uint64]: at least one byte, digits only,
    a value below [2^64]. *)
Definition uint64_literal (s : string) : bool :=
  match s with
  | EmptyString => false
  | _ => all_bytes strconv.is_digit s && (decimal s <? 2 ^ 64)
  end.

(** The descriptor without its default literal and its rule expression. *)
Definition stripConfig (cfg : ValidationConfig) : ValidationConfig :=
  mkValidationConfig (FieldName cfg) (Parser cfg) (Required cfg) "" "".

(** The descriptor makes the loop assign the unexported field. *)
Definition assignsUnexported (r : Request) (cfg : ValidationConfig) : Prop :=
  FieldName cfg = "validationGroup" /\ (getRawValue r cfg).2 = true.

(** [s] starts with the encoding of a white-space rune. *)
Definition starts_space (s : string) : bool :=
  match s with
  | EmptyString => false
  | String c1 s1 =>
      strings.is_space1 c1
      || match s1 with
         | EmptyString => false
         | String c2 s2 =>
             strings.is_space2 c1 c2
             || match s2 with
                | EmptyString => false
                | String c3 _ => strings.is_space3 c1 c2 c3
                end
         end
  end.

(** The parts of a text that [Uint64Slice.UnmarshalText] parses: the
    trimmed parts of the split that are not empty. *)
Definition nonblank_parts (text : string) : list string :=
  filter (fun part => part <> EmptyString)
    (strings.TrimSpace <$> strings.Split text comma).



(** [field.Interface()] for the field [f] of the record. *)
Definition fieldValue (f : FieldId) (req : GenericRequest) : GoValue :=
  match f with
  | F_Name => VString (Name req)
  | F_Email => VString (Email req)
  | F_Tags => VStrings (Tags req)
  | F_IDs => VUints (IDs req)
  | F_UserID => VUint (UserID req)
  | F_Rating => VInt (Rating req)
  | F_validationGroup => VString (validationGroup req)
  end.

(** * Properties *)

(** ** The model on sample inputs *)

Example Split_abc : strings.Split "a, b,c" comma = ["a"; " b"; "c"].
Proof. reflexivity. Qed.

Example TrimSpace_1 : strings.TrimSpace "  a b  " = "a b".
Proof. reflexivity. Qed.

Example ParseUint_max : strconv.ParseUint "18446744073709551615" = Some (2 ^ 64 - 1).
Proof. reflexivity. Qed.

Example ParseUint_over : strconv.ParseUint "18446744073709551616" = None.
Proof. reflexivity. Qed.

Example FormatUint_max : strconv.FormatUint (2 ^ 64 - 1) = "18446744073709551615".
Proof. vm_compute. reflexivity. Qed.

Example ParseInt_min : strconv.ParseInt "-9223372036854775808" = Some (- 2 ^ 63).
Proof. reflexivity. Qed.

(** U+00A0 in front and U+3000 behind are trimmed as well. *)
Example TrimSpace_unicode :
  strings.TrimSpace
    (String (byte_of 194) (String (byte_of 160)
       (String (byte_of 97)
          (String (byte_of 227) (String (byte_of 128) (String (byte_of 128) ""))))))
  = "a".
Proof. reflexivity. Qed.

(** A lone continuation byte is not white space. *)
Example TrimSpace_invalid :
  strings.TrimSpace (String (byte_of 160) " a") = String (byte_of 160) " a".
Proof. reflexivity. Qed.

Example Split_empty : strings.Split "" comma = [""].
Proof. reflexivity. Qed.

Example search_ok :
  ValidateRequest noFieldErrors searchConfigs "search"
    (queryRequest [("Tags", ["tech, music"]); ("Rating", ["-3"])] "")
  = mkRun (Done (mkResponse StatusOK
                   (ValidJSON (with_Rating (-3)
                                 (with_Tags ["tech"; "music"]
                                    (newGenericRequest "search"))))))
      [with_Rating (-3) (with_Tags ["tech"; "music"] (newGenericRequest "search"))].
Proof. reflexivity. Qed.

Example update_two_errors :
  ValidateRequest noFieldErrors updateUserConfigs "update"
    (queryRequest [("IDs", ["1,-2"])] "")
  = mkRun (Done (badRequest
                   [mkValidationError "UserID" "This field is required" "";
                    mkValidationError "IDs" "element 2: must be positive integer" "1,-2"]))
      [].
Proof. reflexivity. Qed.

(** ** Bytes, digits and white space *)

Lemma code_byte_of (z : Z) : 0 <= z < 256 -> code (byte_of z) = z.
Proof.
  intros Hz. unfold code, byte_of.
  rewrite N_ascii_embedding; lia.
Qed.

Lemma byte_of_code (c : ascii) : byte_of (code c) = c.
Proof.
  unfold code, byte_of. rewrite N2Z.id. apply ascii_N_embedding.
Qed.

Lemma code_inj (c1 c2 : ascii) : code c1 = code c2 -> c1 = c2.
Proof.
  intros H. rewrite <- (byte_of_code c1), <- (byte_of_code c2). by rewrite H.
Qed.

Lemma eqb_code (c1 c2 : ascii) : Ascii.eqb c1 c2 = (code c1 =? code c2).
Proof.
  destruct (Ascii.eqb_spec c1 c2) as [-> | Hne].
  - by rewrite Z.eqb_refl.
  - symmetry. apply Z.eqb_neq. intros H. by apply Hne, code_inj.
Qed.

Lemma code_comma : code comma = 44.
Proof. reflexivity. Qed.

Section DigitsAndSpace.
Import strings strconv.

Lemma digit_not_space1 c : is_digit c = true -> is_space1 c = false.
Proof. unfold is_digit, is_space1. lia. Qed.

Lemma digit_not_space2 c c2 : is_digit c = true -> is_space2 c c2 = false.
Proof. unfold is_digit, is_space2. lia. Qed.

Lemma digit_not_space3 c c2 c3 : is_digit c = true -> is_space3 c c2 c3 = false.
Proof. unfold is_digit, is_space3. lia. Qed.

Lemma digit_not_comma c : is_digit c = true -> Ascii.eqb c comma = false.
Proof. rewrite eqb_code, code_comma. unfold is_digit. lia. Qed.

Lemma space1_not_comma c : is_space1 c = true -> Ascii.eqb c comma = false.
Proof. rewrite eqb_code, code_comma. unfold is_space1. lia. Qed.

Lemma digit_space_rune c t : is_digit c = true -> space_rune (String c t) = false.
Proof.
  intros Hc. destruct t as [|c2 [|c3 [|c4 t]]]; simpl;
    auto using digit_not_space1, digit_not_space2, digit_not_space3.
Qed.

Lemma TrimLeft_digit c s : is_digit c = true -> TrimLeft (String c s) = String c s.
Proof.
  intros Hc. simpl. rewrite (digit_not_space1 _ Hc).
  destruct s as [|c2 [|c3 s]]; [done | | ].
  - by rewrite (digit_not_space2 _ _ Hc).
  - by rewrite (digit_not_space2 _ _ Hc), (digit_not_space3 _ _ _ Hc).
Qed.

Lemma TrimRight_cons c s :
  TrimRight (String c s) =
    if space_rune (String c (TrimRight s)) then EmptyString
    else String c (TrimRight s).
Proof. reflexivity. Qed.

Lemma TrimRight_digits s : all_bytes is_digit s = true -> TrimRight s = s.
Proof.
  induction s as [|c s IH]; [done|].
  intros [Hc Hs]%andb_prop. rewrite TrimRight_cons, (IH Hs).
  by rewrite digit_space_rune.
Qed.

(** A string of decimal digits has no white space to trim. *)
Lemma TrimSpace_digits s : all_bytes is_digit s = true -> TrimSpace s = s.
Proof.
  intros Hs. unfold TrimSpace. destruct s as [|c s]; [done|].
  pose proof Hs as [Hc _]%andb_prop.
  rewrite TrimLeft_digit by done. by apply TrimRight_digits.
Qed.

(** A string of ASCII white space trims to the empty string. *)
Lemma TrimSpace_spaces s : all_bytes is_space1 s = true -> TrimSpace s = EmptyString.
Proof.
  intros Hs. unfold TrimSpace.
  assert (TrimLeft s = EmptyString) as ->; [|done].
  induction s as [|c s IH]; [done|]. simpl in *.
  apply andb_prop in Hs as [-> Hs]. auto.
Qed.

End DigitsAndSpace.

(** ** Decimal numbers: [ParseUint] and [FormatUint] *)

Section Decimal.
Import strconv.

Lemma two64 : 2 ^ 64 = 18446744073709551616.
Proof. reflexivity. Qed.

Lemma cutoff_val : maxUint64 / 10 + 1 = 1844674407370955162.
Proof. reflexivity. Qed.

Lemma ParseUint_loop_cons c s n :
  ParseUint_loop (String c s) n =
    if is_digit c then
      if maxUint64 / 10 + 1 <=? n then None
      else if ((n * 10 + (code c - 48)) mod 2 ^ 64 <? n * 10)
              || (maxUint64 <? (n * 10 + (code c - 48)) mod 2 ^ 64)
           then None
           else ParseUint_loop s ((n * 10 + (code c - 48)) mod 2 ^ 64)
    else None.
Proof. reflexivity. Qed.

(** One more digit [d] read after [n]: the value is [n*10+d], unless it
    does not fit 64 bits. *)
Lemma ParseUint_loop_step c s n :
  is_digit c = true -> 0 <= n < 2 ^ 64 ->
  ParseUint_loop (String c s) n =
    if n * 10 + (code c - 48) <? 2 ^ 64
    then ParseUint_loop s (n * 10 + (code c - 48)) else None.
Proof.
  intros Hc Hn. rewrite ParseUint_loop_cons, Hc.
  unfold is_digit in Hc. rewrite cutoff_val. unfold maxUint64.
  rewrite two64 in *.
  set (d := code c - 48) in *. assert (0 <= d <= 9) by lia.
  destruct (Z.leb_spec 1844674407370955162 n) as [Hcut|Hcut].
  - destruct (Z.ltb_spec (n * 10 + d) 18446744073709551616); [lia | done].
  - destruct (Z.ltb_spec (n * 10 + d) 18446744073709551616) as [Hlt|Hge].
    + rewrite Z.mod_small by lia.
      destruct (Z.ltb_spec (n * 10 + d) (n * 10)); [lia|].
      destruct (Z.ltb_spec (18446744073709551616 - 1) (n * 10 + d)); [lia|done].
    + assert ((n * 10 + d) mod 18446744073709551616
              = n * 10 + d - 18446744073709551616) as ->.
      { symmetry. apply (Z.mod_unique_pos _ _ 1); lia. }
      destruct (Z.ltb_spec (n * 10 + d - 18446744073709551616) (n * 10));
        [done | lia].
Qed.

Lemma ParseUint_loop_range s n v :
  0 <= n < 2 ^ 64 -> ParseUint_loop s n = Some v -> 0 <= v < 2 ^ 64.
Proof.
  revert n. induction s as [|c s IH]; intros n Hn.
  - simpl. by intros [= <-].
  - destruct (is_digit c) eqn:Hc.
    + rewrite ParseUint_loop_step by done.
      destruct (Z.ltb_spec (n * 10 + (code c - 48)) (2 ^ 64)); [|done].
      apply IH. unfold is_digit in Hc. lia.
    + by rewrite ParseUint_loop_cons, Hc.
Qed.

(** A parsed value fits a [uint64]. *)
Lemma ParseUint_range s v : ParseUint s = Some v -> 0 <= v < 2 ^ 64.
Proof.
  destruct s as [|c s]; [done|]. unfold ParseUint.
  apply ParseUint_loop_range. rewrite two64. lia.
Qed.

Lemma is_digit_digit_char d : 0 <= d <= 9 -> is_digit (digit_char d) = true.
Proof.
  intros Hd. unfold is_digit, digit_char. rewrite code_byte_of; lia.
Qed.

Lemma code_digit_char d : 0 <= d <= 9 -> code (digit_char d) - 48 = d.
Proof. intros Hd. unfold digit_char. rewrite code_byte_of; lia. Qed.

Lemma formatBits_digits fuel u acc :
  0 <= u -> all_bytes is_digit acc = true ->
  all_bytes is_digit (formatBits fuel u acc) = true.
Proof.
  revert u acc. induction fuel as [|fuel IH]; intros u acc Hu Hacc; [done|].
  simpl. destruct (Z.ltb_spec u 10).
  - simpl. rewrite is_digit_digit_char by lia. done.
  - apply IH; [apply Z.div_pos; lia|].
    simpl. rewrite is_digit_digit_char; [done|].
    pose proof (Z.mod_pos_bound u 10). lia.
Qed.

Lemma formatBits_nonempty fuel u acc :
  formatBits (S fuel) u acc <> EmptyString.
Proof.
  revert u acc. induction fuel as [|fuel IH]; intros u acc; simpl.
  - by destruct (u <? 10).
  - destruct (u <? 10); [done|]. apply IH.
Qed.

Lemma ParseUint_loop_formatBits fuel u acc :
  0 <= u < 2 ^ 64 -> u < 2 ^ Z.of_nat fuel ->
  ParseUint_loop (formatBits fuel u acc) 0 = ParseUint_loop acc u.
Proof.
  revert u acc. induction fuel as [|fuel IH]; intros u acc Hu Hfuel.
  - simpl in *. by replace u with 0 by lia.
  - simpl formatBits. destruct (Z.ltb_spec u 10) as [Hlt|Hge].
    + rewrite ParseUint_loop_step; [|apply is_digit_digit_char; lia|rewrite two64; lia].
      rewrite code_digit_char by lia. rewrite Z.mul_0_l, Z.add_0_l.
      destruct (Z.ltb_spec u (2 ^ 64)); [done|lia].
    + pose proof (Z.mod_pos_bound u 10 ltac:(lia)) as Hmod.
      pose proof (Z.div_mod u 10 ltac:(lia)) as Hdm.
      rewrite IH.
      * rewrite ParseUint_loop_step;
          [|apply is_digit_digit_char; lia|rewrite two64 in *; lia].
        rewrite code_digit_char by lia.
        replace (u `div` 10 * 10 + u `mod` 10) with u by lia.
        destruct (Z.ltb_spec u (2 ^ 64)); [done|lia].
      * rewrite two64 in *. lia.
      * rewrite Nat2Z.inj_succ, Z.pow_succ_r in Hfuel by lia. lia.
Qed.

Lemma FormatUint_digits u : 0 <= u -> all_bytes is_digit (FormatUint u) = true.
Proof. intros Hu. by apply formatBits_digits. Qed.

(** Parsing the decimal representation of a [uint64] gives it back. *)
Lemma ParseUint_FormatUint u : 0 <= u < 2 ^ 64 -> ParseUint (FormatUint u) = Some u.
Proof.
  intros Hu. unfold ParseUint, FormatUint.
  pose proof (formatBits_nonempty (Z.to_nat (Z.log2 u)) u EmptyString) as Hne.
  destruct (formatBits _ u EmptyString) eqn:Hfmt; [done|].
  rewrite <- Hfmt. rewrite ParseUint_loop_formatBits; [done|done|].
  rewrite Nat2Z.inj_succ, Z2Nat.id by apply Z.log2_nonneg.
  destruct (decide (u = 0)) as [->|Hnz]; [done|].
  apply Z.log2_spec. lia.
Qed.

End Decimal.

(** ** Splitting, joining and replacing *)

Section SplitJoin.
Import strings.

Lemma Split_nonempty s sep : Split s sep <> [].
Proof.
  destruct s as [|c s]; [done|]. simpl.
  destruct (Ascii.eqb c sep); [done|]. by destruct (Split s sep).
Qed.

(** One more element than separators. *)
Lemma Split_length s sep : length (Split s sep) = S (count_byte sep s).
Proof.
  induction s as [|c s IH]; [done|]. simpl.
  destruct (Ascii.eqb c sep); simpl; [by rewrite IH|].
  pose proof (Split_nonempty s sep).
  destruct (Split s sep); [done|]. simpl in *. lia.
Qed.

Lemma Split_no_sep s sep : no_byte sep s = true -> Split s sep = [s].
Proof.
  induction s as [|c s IH]; [done|]. simpl.
  intros [Hc Hs]%andb_prop. apply negb_true_iff in Hc. rewrite Hc.
  by rewrite IH.
Qed.

Lemma Split_app_sep a b sep :
  no_byte sep a = true ->
  Split (a +:+ String sep b) sep = a :: Split b sep.
Proof.
  induction a as [|c a IH]; simpl.
  - intros _. by rewrite Ascii.eqb_refl.
  - intros [Hc Ha]%andb_prop. apply negb_true_iff in Hc. rewrite Hc.
    by rewrite IH.
Qed.

(** Splitting a joined list whose elements hold no separator gives the
    list back, unless the list is empty. *)
Lemma Split_Join l sep :
  l <> [] -> Forall (fun s => no_byte sep s = true) l ->
  Split (Join l (String sep EmptyString)) sep = l.
Proof.
  induction l as [|e l IH]; [done|]. intros _ Hl.
  apply Forall_cons in Hl as [He Hl].
  destruct l as [|e' l].
  - by apply Split_no_sep.
  - change (Join (e :: e' :: l) (String sep EmptyString))
      with (e +:+ String sep EmptyString +:+ Join (e' :: l) (String sep EmptyString)).
    change (String sep EmptyString +:+ ?x) with (String sep x).
    rewrite Split_app_sep by done. by rewrite IH.
Qed.

(** Replacing every separator is joining the split parts. *)
Lemma Replace_Join s sep new : Replace s sep new = Join (Split s sep) new.
Proof.
  induction s as [|c s IH]; [done|]. simpl.
  pose proof (Split_nonempty s sep).
  destruct (Ascii.eqb c sep).
  - rewrite IH. by destruct (Split s sep).
  - rewrite IH. destruct (Split s sep) as [|h [|h' t]]; done.
Qed.

End SplitJoin.

(** ** The two slice loops of [setFieldValue] *)

Lemma trim_loop_spec values pre :
  trim_loop (length pre) values (pre ++ replicate (length values) EmptyString)
  = pre ++ (strings.TrimSpace <$> values).
Proof.
  revert pre. induction values as [|v values IH]; intros pre; simpl.
  - done.
  - rewrite insert_app_r_alt by lia. rewrite Nat.sub_diag. simpl.
    rewrite (cons_middle _ pre), app_assoc.
    replace (S (length pre)) with (length (pre ++ [strings.TrimSpace v]))
      by (rewrite length_app; simpl; lia).
    by rewrite IH, <- app_assoc.
Qed.

Lemma parse_loop_cons i v rest slice :
  parse_loop i (v :: rest) slice =
    match parseElem v with
    | None => inl (elementError (S i))
    | Some val => parse_loop (S i) rest (<[i := val]> slice)
    end.
Proof.
  unfold elementError. rewrite Nat2Z.inj_succ, <- Z.add_1_r. reflexivity.
Qed.

(** All elements parse: the slice holds their values, in order. *)
Lemma parse_loop_ok values l pre :
  Forall2 (fun v n => parseElem v = Some n) values l ->
  parse_loop (length pre) values (pre ++ replicate (length values) 0)
  = inr (pre ++ l).
Proof.
  intros Hall. revert pre.
  induction Hall as [|v n values l Hv _ IH]; intros pre.
  - done.
  - rewrite parse_loop_cons, Hv. simpl replicate.
    rewrite insert_app_r_alt by lia. rewrite Nat.sub_diag. simpl.
    rewrite (cons_middle _ pre), app_assoc.
    replace (S (length pre)) with (length (pre ++ [n]))
      by (rewrite length_app; simpl; lia).
    by rewrite IH, <- app_assoc.
Qed.

(** The loop stops at the first element that does not parse and names its
    1-based position. *)
Lemma parse_loop_bad good bad rest pre :
  Forall (fun v => is_Some (parseElem v)) good ->
  parseElem bad = None ->
  parse_loop (length pre) (good ++ bad :: rest)
    (pre ++ replicate (length (good ++ bad :: rest)) 0)
  = inl (elementError (length pre + length good + 1)).
Proof.
  intros Hgood Hbad. revert pre.
  induction Hgood as [|v good [n Hv] _ IH]; intros pre.
  - simpl app. rewrite parse_loop_cons, Hbad. f_equal. f_equal. simpl. lia.
  - change ((v :: good) ++ bad :: rest) with (v :: (good ++ bad :: rest)).
    rewrite parse_loop_cons, Hv. simpl replicate.
    rewrite insert_app_r_alt by lia. rewrite Nat.sub_diag. simpl.
    rewrite (cons_middle _ pre), app_assoc.
    replace (S (length pre)) with (length (pre ++ [n]))
      by (rewrite length_app; simpl; lia).
    rewrite IH. f_equal. f_equal. rewrite length_app. simpl. lia.
Qed.

(** Every list of raw elements either parses as a whole or has a first
    element that does not. *)
Lemma parse_elems_cases values :
  (exists l, Forall2 (fun v n => parseElem v = Some n) values l)
  \/ (exists good bad rest,
        values = good ++ bad :: rest
        /\ Forall (fun v => is_Some (parseElem v)) good
        /\ parseElem bad = None).
Proof.
  induction values as [|v values IH].
  - left. exists []. constructor.
  - destruct (parseElem v) as [n|] eqn:Hv.
    + destruct IH as [[l Hl] | (good & bad & rest & -> & Hgood & Hbad)].
      * left. exists (n :: l). by constructor.
      * right. exists (v :: good), bad, rest. split; [done|]. split; [|done].
        constructor; [by exists n | done].
    + right. exists [], v, values. by repeat split.
Qed.

(** ** Coercion of the slice fields *)

Lemma trim_loop_0 values :
  trim_loop 0 values (replicate (length values) EmptyString)
  = strings.TrimSpace <$> values.
Proof. exact (trim_loop_spec values []). Qed.

Lemma parse_loop_ok_0 values l :
  Forall2 (fun v n => parseElem v = Some n) values l ->
  parse_loop 0 values (replicate (length values) 0) = inr l.
Proof. intros H. exact (parse_loop_ok values l [] H). Qed.

Lemma parse_loop_bad_0 good bad rest :
  Forall (fun v => is_Some (parseElem v)) good ->
  parseElem bad = None ->
  parse_loop 0 (good ++ bad :: rest)
    (replicate (length (good ++ bad :: rest)) 0)
  = inl (elementError (length good + 1)).
Proof. intros H1 H2. exact (parse_loop_bad good bad rest [] H1 H2). Qed.

Lemma setFieldValue_Tags raw cfg req :
  setFieldValue F_Tags raw cfg req
  = Done (with_Tags (strings.TrimSpace <$> strings.Split raw comma) req, None).
Proof.
  unfold setFieldValue. cbn [FieldType reflect.KindOf reflect.Elem].
  rewrite (trim_loop_0 (strings.Split raw comma)). reflexivity.
Qed.

Lemma setFieldValue_IDs raw cfg req :
  setFieldValue F_IDs raw cfg req
  = match parse_loop 0 (strings.Split raw comma)
            (replicate (length (strings.Split raw comma)) 0) with
    | inl err => Done (req, Some err)
    | inr slice => Done (with_IDs slice req, None)
    end.
Proof.
  unfold setFieldValue. cbn [FieldType reflect.KindOf reflect.Elem].
  by destruct (parse_loop _ _ _).
Qed.

Lemma setFieldValue_IDs_ok raw cfg req l :
  Forall2 (fun v n => parseElem v = Some n) (strings.Split raw comma) l ->
  setFieldValue F_IDs raw cfg req = Done (with_IDs l req, None).
Proof.
  intros Hl. rewrite setFieldValue_IDs.
  by rewrite (parse_loop_ok_0 _ l).
Qed.

Lemma setFieldValue_IDs_bad raw cfg req good bad rest :
  strings.Split raw comma = good ++ bad :: rest ->
  Forall (fun v => is_Some (parseElem v)) good ->
  parseElem bad = None ->
  setFieldValue F_IDs raw cfg req
  = Done (req, Some (elementError (length good + 1))).
Proof.
  intros Hsplit Hgood Hbad. rewrite setFieldValue_IDs, Hsplit.
  by rewrite (parse_loop_bad_0 good bad rest).
Qed.

(** A successful coercion of an unsigned-integer list: the elements parsed,
    each a [uint64], and there is at least one. *)
Lemma setFieldValue_IDs_inv raw cfg req req' :
  setFieldValue F_IDs raw cfg req = Done (req', None) ->
  req' = with_IDs (IDs req') req
  /\ Forall2 (fun v n => parseElem v = Some n) (strings.Split raw comma) (IDs req').
Proof.
  destruct (parse_elems_cases (strings.Split raw comma))
    as [[l Hl] | (good & bad & rest & Hsplit & Hgood & Hbad)].
  - rewrite (setFieldValue_IDs_ok _ _ _ l) by done. by intros [= <-].
  - by rewrite (setFieldValue_IDs_bad _ _ _ good bad rest).
Qed.

(** ** The extraction loop *)

Lemma FieldByName_validationGroup name :
  FieldByName name = Some F_validationGroup -> name = "validationGroup".
Proof.
  unfold FieldByName.
  repeat match goal with
         | |- context [String.eqb name ?s] =>
             destruct (String.eqb_spec name s); [done|]
         end.
  done.
Qed.

Lemma FieldByName_CanSet r cfg field :
  writable r cfg -> FieldByName (FieldName cfg) = Some field ->
  (getRawValue r cfg).2 = true ->
  CanSet field = true.
Proof.
  intros Hw Hf Hfound. destruct field; try done.
  apply FieldByName_validationGroup in Hf. apply Hw in Hf. congruence.
Qed.

(** [setFieldValue] never reads the descriptor. *)
Lemma setFieldValue_cfg field raw cfg cfg' req :
  setFieldValue field raw cfg req = setFieldValue field raw cfg' req.
Proof. reflexivity. Qed.

(** On a field that can be assigned, [setFieldValue] returns; its error is
    [coerceError], whatever the record, and the record is unchanged when
    there is an error. *)
Lemma setFieldValue_Done field raw cfg req :
  CanSet field = true ->
  exists req', setFieldValue field raw cfg req = Done (req', coerceError field raw)
               /\ (coerceError field raw <> None -> req' = req).
Proof.
  intros Hset. destruct field; try done.
  - by eexists.
  - by eexists.
  - unfold coerceError. rewrite !setFieldValue_Tags. by eexists.
  - unfold coerceError. rewrite !setFieldValue_IDs.
    destruct (parse_loop _ _ _); by eexists.
  - unfold coerceError, setFieldValue.
    cbn [FieldType reflect.KindOf].
    destruct (strconv.ParseUint raw); by eexists.
  - unfold coerceError, setFieldValue.
    cbn [FieldType reflect.KindOf].
    destruct (strconv.ParseInt raw); by eexists.
Qed.

(** Writing to the unexported field panics. *)
Lemma setFieldValue_unexported raw cfg req :
  setFieldValue F_validationGroup raw cfg req
  = Panic "reflect: reflect.Value.Set using value obtained using unexported field".
Proof. reflexivity. Qed.

(** A descriptor that is not [writable] makes the loop body panic. *)
Lemma parseField_Panic r cfg st :
  FieldName cfg = "validationGroup" -> (getRawValue r cfg).2 = true ->
  parseField r cfg st
  = Panic "reflect: reflect.Value.Set using value obtained using unexported field".
Proof.
  intros Hname Hfound. destruct st as [req errors]. unfold parseField.
  rewrite Hname. change (FieldByName "validationGroup") with (Some F_validationGroup).
  destruct (getRawValue r cfg) as [raw found]. simpl in Hfound. by subst found.
Qed.

Lemma writable_exported r cfg : FieldName cfg <> "validationGroup" -> writable r cfg.
Proof. by intros Hne Heq. Qed.

Lemma writable_absent r cfg : (getRawValue r cfg).2 = false -> writable r cfg.
Proof. by intros Habs _. Qed.

Lemma parseField_unknown r cfg st :
  FieldByName (FieldName cfg) = None -> parseField r cfg st = Done st.
Proof. intros H. destruct st. unfold parseField. by rewrite H. Qed.

Lemma parseField_absent r cfg field req errors :
  FieldByName (FieldName cfg) = Some field ->
  (getRawValue r cfg).2 = false ->
  parseField r cfg (req, errors)
  = Done (req, errors ++ if Required cfg then [requiredError cfg] else []).
Proof.
  intros Hf Habs. unfold parseField. rewrite Hf.
  destruct (getRawValue r cfg) as [raw found]. simpl in Habs. subst found.
  simpl. destruct (Required cfg); [done|]. by rewrite app_nil_r.
Qed.

(** One descriptor: the loop body returns, appends the descriptor's errors
    and nothing else. *)
Lemma parseField_Done r cfg req errors :
  writable r cfg ->
  exists req', parseField r cfg (req, errors)
               = Done (req', errors ++ fieldErrors r cfg).
Proof.
  intros Hw. unfold parseField, fieldErrors.
  destruct (FieldByName (FieldName cfg)) as [field|] eqn:Hf.
  - pose proof (FieldByName_CanSet r cfg field Hw Hf) as Hset.
    destruct (getRawValue r cfg) as [raw found].
    destruct found; simpl.
    + destruct (setFieldValue_Done field raw cfg req) as (req' & -> & _);
        [by apply Hset|].
      simpl. destruct (coerceError field raw); eexists; [done|].
      by rewrite app_nil_r.
    + destruct (Required cfg); eexists; [done|]. by rewrite app_nil_r.
  - eexists. by rewrite app_nil_r.
Qed.

Lemma parseFields_cons r cfg rest st :
  parseFields r (cfg :: rest) st
  = (st' ← parseField r cfg st; parseFields r rest st').
Proof. reflexivity. Qed.

Lemma parseFields_app r l1 l2 st :
  parseFields r (l1 ++ l2) st = (st' ← parseFields r l1 st; parseFields r l2 st').
Proof.
  revert st. induction l1 as [|cfg l1 IH]; intros st; [done|].
  change ((cfg :: l1) ++ l2) with (cfg :: (l1 ++ l2)).
  rewrite !parseFields_cons.
  destruct (parseField r cfg st) as [st'|msg]; [|done].
  simpl. apply IH.
Qed.

(** The loop visits every descriptor: it returns, with the errors of all
    descriptors, in the order of the descriptors. *)
Lemma parseFields_Done r configs req errors :
  Forall (writable r) configs ->
  exists req', parseFields r configs (req, errors)
               = Done (req', errors ++ flat_map (fieldErrors r) configs).
Proof.
  intros Hexp. revert req errors.
  induction Hexp as [|cfg configs Hcfg _ IH]; intros req errors.
  - exists req. simpl. by rewrite app_nil_r.
  - rewrite parseFields_cons.
    destruct (parseField_Done r cfg req errors Hcfg) as [req1 ->].
    simpl. destruct (IH req1 (errors ++ fieldErrors r cfg)) as [req' ->].
    exists req'. by rewrite <- app_assoc.
Qed.

(** Conversely the loop panics as soon as one descriptor assigns the
    unexported field. *)
Lemma parseFields_Panic r configs st :
  ~ Forall (writable r) configs ->
  exists msg, parseFields r configs st = Panic msg.
Proof.
  revert st. induction configs as [|cfg configs IH]; intros st Hnot.
  - destruct Hnot. constructor.
  - rewrite parseFields_cons.
    destruct (decide (FieldName cfg = "validationGroup")) as [Hname | Hname].
    + destruct ((getRawValue r cfg).2) eqn:Hfound.
      * rewrite parseField_Panic by done. by eexists.
      * destruct st as [req errors].
        destruct (parseField_Done r cfg req errors) as [req' ->];
          [by apply writable_absent|].
        apply IH. intros Hrest. apply Hnot.
        constructor; [by apply writable_absent | done].
    + destruct st as [req errors].
      destruct (parseField_Done r cfg req errors) as [req' ->];
        [by apply writable_exported|].
      apply IH. intros Hrest. apply Hnot.
      constructor; [by apply writable_exported | done].
Qed.

Lemma fieldErrors_Field r cfg e :
  e ∈ fieldErrors r cfg -> ve_Field e = FieldName cfg.
Proof.
  unfold fieldErrors. destruct (FieldByName (FieldName cfg)); [|by intros ?%elem_of_nil].
  destruct (getRawValue r cfg) as [raw found]. destruct found; simpl.
  - destruct (coerceError _ _); [|by intros ?%elem_of_nil].
    by intros ->%list_elem_of_singleton.
  - destruct (Required cfg); [|by intros ?%elem_of_nil].
    by intros ->%list_elem_of_singleton.
Qed.

(** ** The handler *)

Section HandlerFacts.
Variable V : GenericRequest -> list FieldError.

Lemma ValidateRequest_congr configs configs' group r r' :
  parseFields r configs (newGenericRequest group, [])
  = parseFields r' configs' (newGenericRequest group, []) ->
  ValidateRequest V configs group r = ValidateRequest V configs' group r'.
Proof. intros H. unfold ValidateRequest. by rewrite H. Qed.

Lemma ValidateRequest_BadRequest configs group r req errors :
  parseFields r configs (newGenericRequest group, []) = Done (req, errors) ->
  errors <> [] ->
  ValidateRequest V configs group r = mkRun (Done (badRequest errors)) [].
Proof.
  intros H Hne. unfold ValidateRequest. rewrite H.
  by destruct errors.
Qed.

Lemma ValidateRequest_validated configs group r req :
  parseFields r configs (newGenericRequest group, []) = Done (req, []) ->
  validated (ValidateRequest V configs group r) = [req].
Proof.
  intros H. unfold ValidateRequest. rewrite H. simpl.
  by destruct (V req).
Qed.

Lemma ValidateRequest_Panic configs group r msg :
  parseFields r configs (newGenericRequest group, []) = Panic msg ->
  ValidateRequest V configs group r = mkRun (Panic msg) [].
Proof. intros H. unfold ValidateRequest. by rewrite H. Qed.

(** The outcome of the handler when no descriptor assigns the unexported
    field: when
    an error was collected, the 400 response with all collected errors and
    no call of the validator; otherwise the assembled record goes to the
    validator. *)
Lemma ValidateRequest_outcome configs group r :
  Forall (writable r) configs ->
  exists req,
    parseFields r configs (newGenericRequest group, [])
    = Done (req, flat_map (fieldErrors r) configs)
    /\ (flat_map (fieldErrors r) configs <> [] ->
        ValidateRequest V configs group r
        = mkRun (Done (badRequest (flat_map (fieldErrors r) configs))) [])
    /\ (flat_map (fieldErrors r) configs = [] ->
        validated (ValidateRequest V configs group r) = [req]).
Proof.
  intros Hexp.
  destruct (parseFields_Done r configs (newGenericRequest group) [] Hexp)
    as [req Hreq].
  simpl in Hreq. exists req. split; [done|]. split.
  - intros Hne. by eapply ValidateRequest_BadRequest.
  - intros Hnil. rewrite Hnil in Hreq. by eapply ValidateRequest_validated.
Qed.

End HandlerFacts.

(** ** The rules ["in"] and ["unique"] *)

Lemma in_loop_spec values fieldValue :
  in_loop values fieldValue = true <-> fieldValue ∈ values.
Proof.
  induction values as [|v values IH]; simpl.
  - split; [done | by intros ?%elem_of_nil].
  - destruct (String.eqb_spec v fieldValue) as [-> | Hne].
    + split; [intros _; apply list_elem_of_here | done].
    + rewrite IH. split; [apply list_elem_of_further|].
      intros [?|?]%elem_of_cons; [congruence | done].
Qed.

(** The rule passes exactly when the printed value is one of the members. *)
Lemma in_rule_spec fl :
  in_rule fl = true
  <-> fmt.Sprintf_v (fl_Field fl) ∈ strings.Split (fl_Param fl) comma.
Proof. apply in_loop_spec. Qed.

Lemma unique_loop_spec elems (unique : gset string) :
  unique_loop elems unique = true
  <-> NoDup (fmt.Sprintf_v <$> elems)
      /\ (forall s, s ∈ fmt.Sprintf_v <$> elems -> s ∉ unique).
Proof.
  revert unique. induction elems as [|e elems IH]; intros unique; simpl.
  - split; [|done]. intros _. split; [constructor | by intros s ?%elem_of_nil].
  - destruct (decide (fmt.Sprintf_v e ∈ unique)) as [Hin | Hnin].
    + split; [done|]. intros [_ Hfresh]. exfalso.
      apply (Hfresh (fmt.Sprintf_v e)); [apply list_elem_of_here | done].
    + rewrite IH. rewrite NoDup_cons. split.
      * intros [Hnd Hfresh]. split; [split; [|done]|].
        -- intros Hin. apply (Hfresh _ Hin).
           by apply elem_of_union_l, elem_of_singleton.
        -- intros s [-> | Hs]%elem_of_cons; [done|].
           intros Hu. apply (Hfresh s Hs). by apply elem_of_union_r.
      * intros [[Hhd Hnd] Hfresh]. split; [done|].
        intros s Hs [->%elem_of_singleton | Hu]%elem_of_union; [done|].
        apply (Hfresh s); [by apply list_elem_of_further | done].
Qed.

(** On a slice the rule passes exactly when the printed elements are
    pairwise different. *)
Lemma unique_rule_slice fl :
  ValueKind (fl_Field fl) = reflect.Slice ->
  unique_rule fl = true <-> NoDup (fmt.Sprintf_v <$> Elements (fl_Field fl)).
Proof.
  intros Hk. unfold unique_rule. rewrite Hk, unique_loop_spec.
  split; [by intros [? _] | intros ?; split; [done|]].
  intros s _. apply not_elem_of_empty.
Qed.

(** A list with a repetition has two positions holding the same element. *)
Lemma not_NoDup_lookup (l : list string) :
  ~ NoDup l <->
  exists (i j : nat) (s : string), i <> j /\ l !! i = Some s /\ l !! j = Some s.
Proof.
  split.
  - induction l as [|a l IH]; intros Hnd; [destruct Hnd; constructor|].
    destruct (decide (a ∈ l)) as [Hin | Hnin].
    + apply list_elem_of_lookup in Hin as [k Hk].
      exists 0%nat, (S k), a. by repeat split.
    + destruct IH as (i & j & s & Hij & Hi & Hj).
      { intros Hl. apply Hnd. by constructor. }
      exists (S i), (S j), s. repeat split; [lia | done | done].
  - intros (i & j & s & Hij & Hi & Hj) Hnd.
    apply Hij. by eapply NoDup_lookup.
Qed.

(** * The claims *)

(** ** C1 *)

(** C1 (defect of the code).  The claim: for every list of descriptors and
    every request the loop visits every descriptor, collects all required
    and coercion errors, and answers 400 with them when there is one.
    The code misses a case: [FieldByName] also finds the unexported field
    [validationGroup], and assigning it panics.  With the descriptors
    [Name] (required, from the body) and [validationGroup] (from the
    query) and the query [validationGroup=x], the first descriptor
    contributes its required-error, the second one makes the handler panic:
    no 400 response is written and the error collected is lost. *)
Theorem C1_unexported_field_panics (V : GenericRequest -> list FieldError) :
  let configs := [mkValidationConfig "Name" BodyParser true "" "required"; groupConfig] in
  let r := queryRequest [("validationGroup", ["x"])] "" in
  parseFields r [mkValidationConfig "Name" BodyParser true "" "required"]
    (newGenericRequest "create", [])
  = Done (newGenericRequest "create",
          [mkValidationError "Name" "This field is required" ""])
  /\ ValidateRequest V configs "create" r
     = mkRun (Panic "reflect: reflect.Value.Set using value obtained using unexported field") [].
Proof. split; reflexivity. Qed.

(** ** C2 *)

Lemma parse_loop_error i values slice err :
  parse_loop i values slice = inl err -> exists n, err = elementError n.
Proof.
  revert i slice. induction values as [|v values IH]; intros i slice; [done|].
  rewrite parse_loop_cons. destruct (parseElem v).
  - apply IH.
  - intros [= <-]. by eexists.
Qed.

(** No field of [GenericRequest] has an unsupported type: [setFieldValue]
    never returns one of its two "unsupported" errors. *)
Lemma setFieldValue_supported field raw cfg req req' msg :
  setFieldValue field raw cfg req = Done (req', Some msg) ->
  msg <> "unsupported field type" /\ msg <> "unsupported slice type".
Proof.
  destruct field.
  - done.
  - done.
  - by rewrite setFieldValue_Tags.
  - rewrite setFieldValue_IDs.
    destruct (parse_loop _ _ _) as [err|] eqn:Hloop; [|done].
    apply parse_loop_error in Hloop as [n ->]. by intros [= _ <-].
  - unfold setFieldValue. cbn [FieldType reflect.KindOf].
    destruct (strconv.ParseUint raw); [done|]. by intros [= _ <-].
  - unfold setFieldValue. cbn [FieldType reflect.KindOf].
    destruct (strconv.ParseInt raw); [done|]. by intros [= _ <-].
  - done.
Qed.

(** C2 (as amended).  A descriptor whose [FieldName] names no field of the
    request record is skipped silently: it adds no error, and the handler
    does what it does without the descriptor, so no failure is surfaced.
    No field of the record has an unsupported type: coercion never
    reports one. *)
Theorem C2_unknown_field_is_skipped (V : GenericRequest -> list FieldError)
    (pre post : list ValidationConfig) (cfg : ValidationConfig)
    (group : string) (r : Request) :
  FieldByName (FieldName cfg) = None ->
  fieldErrors r cfg = []
  /\ ValidateRequest V (pre ++ cfg :: post) group r
     = ValidateRequest V (pre ++ post) group r
  /\ (forall field raw cfg' req req' msg,
        setFieldValue field raw cfg' req = Done (req', Some msg) ->
        msg <> "unsupported field type" /\ msg <> "unsupported slice type").
Proof.
  intros Hnone. split; [|split].
  - unfold fieldErrors. by rewrite Hnone.
  - apply ValidateRequest_congr.
    rewrite !parseFields_app.
    destruct (parseFields r pre _) as [st|msg]; [|done].
    unfold mbind, exec_bind.
    rewrite parseFields_cons, parseField_unknown by done. done.
  - apply setFieldValue_supported.
Qed.

(** Witness of C2: the descriptor [Nickname] in front of the search table. *)
Lemma C2_unknown_field_is_skipped_witness :
  FieldByName (FieldName (unknownConfig QueryParser)) = None
  /\ ValidateRequest noFieldErrors ([] ++ unknownConfig QueryParser :: searchConfigs)
       "search" (queryRequest [("Tags", ["tech"])] "")
     = ValidateRequest noFieldErrors ([] ++ searchConfigs)
         "search" (queryRequest [("Tags", ["tech"])] "").
Proof.
  split; [reflexivity|].
  exact (proj1 (proj2 (C2_unknown_field_is_skipped noFieldErrors []
                         searchConfigs (unknownConfig QueryParser) "search"
                         (queryRequest [("Tags", ["tech"])] "") eq_refl))).
Defined.

(** Counterexample to C2 as stated: a required descriptor naming no field
    of the record, with nothing in the request, is answered 200; nothing is
    surfaced. *)
Lemma C2_counterexample :
  FieldByName (FieldName (unknownConfig QueryParser)) = None
  /\ ValidateRequest noFieldErrors [unknownConfig QueryParser] "create"
       (queryRequest [] "")
     = mkRun (Done (mkResponse StatusOK (ValidJSON (newGenericRequest "create"))))
         [newGenericRequest "create"].
Proof. split; reflexivity. Qed.

(** ** C3 *)

(** [Default] is read nowhere: changing it changes nothing. *)
Lemma parseField_ignores_Default r name parser required d d' tags st :
  parseField r (mkValidationConfig name parser required d tags) st
  = parseField r (mkValidationConfig name parser required d' tags) st.
Proof. reflexivity. Qed.

(** C3 (defect of the code).  The claim: when the lookup reports the field
    as not present and the descriptor has a default literal, the default is
    coerced into the record.  The code never reads [Default]: for the search
    table of [main], whose [Rating] descriptor has the default "5", and a
    query without [Rating], the record handed to the validator has
    [Rating = 0], although coercing the default would give 5. *)
Theorem C3_default_is_ignored (V : GenericRequest -> list FieldError) :
  let r := queryRequest [("Tags", ["tech"])] "" in
  Default ratingConfig = "5"
  /\ getRawValue r ratingConfig = ("", false)
  /\ validated (ValidateRequest V searchConfigs "search" r)
     = [with_Tags ["tech"] (newGenericRequest "search")]
  /\ Rating (with_Tags ["tech"] (newGenericRequest "search")) = 0
  /\ setFieldValue F_Rating (Default ratingConfig) ratingConfig
       (with_Tags ["tech"] (newGenericRequest "search"))
     = Done (with_Rating 5 (with_Tags ["tech"] (newGenericRequest "search")), None).
Proof.
  repeat split.
  unfold ValidateRequest.
  change (parseFields _ searchConfigs _)
    with (Done (with_Tags ["tech"] (newGenericRequest "search"),
                @nil ValidationError)).
  simpl. by destruct (V _).
Qed.

(** ** C4 *)

Lemma spaces_no_comma s :
  all_bytes strings.is_space1 s = true -> no_byte comma s = true.
Proof.
  unfold no_byte. induction s as [|c s IH]; [done|].
  cbn [all_bytes]. intros [Hc Hs]%andb_prop.
  by rewrite (space1_not_comma _ Hc), IH.
Qed.

(** C4 (as amended).  Coercing a raw string to a string list never fails:
    it assigns the elements of the split on [","], each with its
    surrounding white space trimmed.  The list has one more element than
    the raw string has commas, so it is never empty; for a raw string of
    white space only (the empty string included) it is the one-element list
    holding the empty string. *)
Theorem C4_string_list_coercion (raw : string) (cfg : ValidationConfig)
    (req : GenericRequest) :
  setFieldValue F_Tags raw cfg req
  = Done (with_Tags (strings.TrimSpace <$> strings.Split raw comma) req, None)
  /\ length (strings.TrimSpace <$> strings.Split raw comma)
     = S (count_byte comma raw)
  /\ (all_bytes strings.is_space1 raw = true ->
      strings.TrimSpace <$> strings.Split raw comma = [EmptyString]).
Proof.
  split; [apply setFieldValue_Tags|]. split.
  - by rewrite length_fmap, Split_length.
  - intros Hsp. rewrite Split_no_sep by by apply spaces_no_comma.
    simpl. by rewrite TrimSpace_spaces.
Qed.

(** Counterexample to C4 as stated: the empty string and a string of
    blanks coerce to a list of one element, not to the empty list. *)
Lemma C4_counterexample :
  setFieldValue F_Tags "" ratingConfig (newGenericRequest "search")
  = Done (with_Tags [""] (newGenericRequest "search"), None)
  /\ setFieldValue F_Tags "   " ratingConfig (newGenericRequest "search")
     = Done (with_Tags [""] (newGenericRequest "search"), None)
  /\ length (Tags (with_Tags [""] (newGenericRequest "search"))) = 1%nat
  /\ Tags (with_Tags [""] (newGenericRequest "search")) <> [].
Proof. repeat split; done. Qed.

(** ** C5 *)

Lemma filter_none {A : Type} (P : A -> Prop) `{!forall x, Decision (P x)}
    (l : list A) :
  Forall (fun x => ~ P x) l -> filter P l = [].
Proof.
  induction 1 as [|x l Hx _ IH]; [done|].
  by rewrite filter_cons_False.
Qed.

Lemma flat_map_fieldErrors_other r configs name :
  Forall (fun c => FieldName c <> name) configs ->
  filter (fun e => ve_Field e = name) (flat_map (fieldErrors r) configs) = [].
Proof.
  intros Hne. apply filter_none. apply Forall_forall. intros e He.
  apply list_elem_of_In, in_flat_map in He as (c & Hc & He).
  apply list_elem_of_In in Hc, He.
  rewrite (fieldErrors_Field _ _ _ He).
  by apply (proj1 (Forall_forall _ _) Hne).
Qed.

Lemma fieldErrors_absent r cfg field :
  FieldByName (FieldName cfg) = Some field ->
  (getRawValue r cfg).2 = false ->
  fieldErrors r cfg = if Required cfg then [requiredError cfg] else [].
Proof.
  intros Hf Habs. unfold fieldErrors. rewrite Hf.
  destruct (getRawValue r cfg) as [raw found]. simpl in Habs. by subst found.
Qed.

(** A required descriptor of a field of the record, absent from its
    source: the handler answers 400, with the descriptor's required-error
    among the errors of the other descriptors. *)
Lemma required_absent_BadRequest (V : GenericRequest -> list FieldError)
    pre post cfg group r field :
  Required cfg = true ->
  FieldByName (FieldName cfg) = Some field ->
  (getRawValue r cfg).2 = false ->
  Forall (writable r) (pre ++ post) ->
  ValidateRequest V (pre ++ cfg :: post) group r
  = mkRun (Done (badRequest (flat_map (fieldErrors r) pre
                               ++ requiredError cfg
                               :: flat_map (fieldErrors r) post))) [].
Proof.
  intros Hreq Hf Habs Hw.
  apply Forall_app in Hw as [Hpre Hpost].
  destruct (ValidateRequest_outcome V (pre ++ cfg :: post) group r)
    as (req & _ & Hbad & _).
  { apply Forall_app. split; [done|].
    constructor; [by apply writable_absent | done]. }
  rewrite flat_map_app in Hbad. simpl in Hbad.
  rewrite (fieldErrors_absent _ _ field), Hreq in Hbad by done.
  apply Hbad. by destruct (flat_map (fieldErrors r) pre).
Qed.

(** C5 (as amended).  For a required descriptor whose [FieldName] names a
    field of the request record and whose lookup reports the field absent:
    the loop body appends exactly the error "This field is required" for
    it and leaves the record alone (no coercion); when no descriptor
    assigns the unexported field, the handler answers 400 without calling
    the validator, and the errors hold that error at the descriptor's
    position; when no other descriptor names the same field it is the one
    error for that field. *)
Theorem C5_required_and_absent (V : GenericRequest -> list FieldError)
    (pre post : list ValidationConfig) (cfg : ValidationConfig)
    (group : string) (r : Request) (field : FieldId) :
  Required cfg = true ->
  FieldByName (FieldName cfg) = Some field ->
  (getRawValue r cfg).2 = false ->
  Forall (writable r) (pre ++ post) ->
  let errors := flat_map (fieldErrors r) pre
                ++ requiredError cfg :: flat_map (fieldErrors r) post in
  (forall req errs,
      parseField r cfg (req, errs) = Done (req, errs ++ [requiredError cfg]))
  /\ ValidateRequest V (pre ++ cfg :: post) group r
     = mkRun (Done (badRequest errors)) []
  /\ (Forall (fun c => FieldName c <> FieldName cfg) (pre ++ post) ->
      filter (fun e => ve_Field e = FieldName cfg) errors = [requiredError cfg]).
Proof.
  intros Hreq Hf Habs Hw errors. split; [|split].
  - intros req errs. rewrite (parseField_absent _ _ field) by done.
    by rewrite Hreq.
  - by apply (required_absent_BadRequest V pre post cfg group r field).
  - intros Hne. apply Forall_app in Hne as [Hpre Hpost]. subst errors.
    rewrite filter_app, filter_cons_True by done.
    by rewrite !flat_map_fieldErrors_other.
Qed.

(** Witness of C5: the update table of [main] on a request without the
    route variable [UserID]. *)
Lemma C5_required_and_absent_witness :
  ValidateRequest noFieldErrors updateUserConfigs "update" (queryRequest [] "")
  = mkRun (Done (badRequest [mkValidationError "UserID" "This field is required" ""])) [].
Proof.
  refine (proj1 (proj2 (C5_required_and_absent noFieldErrors []
           [mkValidationConfig "Name" BodyParser false "" "omitempty,min=3,max=50";
            mkValidationConfig "IDs" QueryParser false "" "omitempty,unique,dive,min=1"]
           (mkValidationConfig "UserID" ParamParser true "" "required,min=1")
           "update" (queryRequest [] "") F_UserID eq_refl eq_refl eq_refl _))).
  repeat constructor; intros Hname; discriminate Hname.
Defined.

(** Counterexample to C5 as stated: a required descriptor whose lookup
    reports the field absent, but whose name is no field of the record,
    gets no error at all; and a field named by two required descriptors,
    absent from both sources, gets two errors. *)
Lemma C5_counterexample :
  Required (unknownConfig QueryParser) = true
  /\ (getRawValue (queryRequest [] "") (unknownConfig QueryParser)).2 = false
  /\ ValidateRequest noFieldErrors [unknownConfig QueryParser] "search"
       (queryRequest [] "")
     = mkRun (Done (mkResponse StatusOK (ValidJSON (newGenericRequest "search"))))
         [newGenericRequest "search"]
  /\ ValidateRequest noFieldErrors
       [mkValidationConfig "Name" BodyParser true "" "required";
        mkValidationConfig "Name" QueryParser true "" "required"]
       "create" (queryRequest [] "")
     = mkRun (Done (badRequest
                      [mkValidationError "Name" "This field is required" "";
                       mkValidationError "Name" "This field is required" ""]))
         [].
Proof. repeat split. Qed.

(** ** C6 *)

(** C6.  Coercing a raw string to an unsigned-integer list splits it on
    [","], trims each element and parses it as a base-10 unsigned integer.
    When [bad] is the first element that does not parse, after the
    elements [good] that do, the coercion fails with the one error
    "element N: must be positive integer", N the 1-based position of
    [bad], and the record is left as it was; in the loop this is one error
    for the field, carrying the raw text. *)
Theorem C6_uint_list_first_unparsable (raw : string) (good rest : list string)
    (bad : string) (cfg : ValidationConfig) (req : GenericRequest) :
  strings.Split raw comma = good ++ bad :: rest ->
  Forall (fun v => is_Some (strconv.ParseUint (strings.TrimSpace v))) good ->
  strconv.ParseUint (strings.TrimSpace bad) = None ->
  let msg := "element " +:+ strconv.FormatInt (Z.of_nat (length good) + 1)
               +:+ ": must be positive integer" in
  setFieldValue F_IDs raw cfg req = Done (req, Some msg)
  /\ (forall r errors,
        FieldName cfg = "IDs" -> getRawValue r cfg = (raw, true) ->
        parseField r cfg (req, errors)
        = Done (req, errors ++ [mkValidationError "IDs" msg raw])).
Proof.
  intros Hsplit Hgood Hbad msg.
  assert (setFieldValue F_IDs raw cfg req = Done (req, Some msg)) as Hset.
  { rewrite (setFieldValue_IDs_bad raw cfg req good bad rest) by done.
    unfold elementError, msg, fmt.Sprintf_d.
    by rewrite Nat2Z.inj_add. }
  split; [done|].
  intros r errors Hname Hraw. unfold parseField.
  rewrite Hname. change (FieldByName "IDs") with (Some F_IDs).
  rewrite Hraw. simpl negb. cbv iota. by rewrite Hset.
Qed.

(** Witness of C6: in "1, x,3" the second element is the first that does
    not parse. *)
Lemma C6_uint_list_first_unparsable_witness :
  setFieldValue F_IDs "1, x,3" ratingConfig (newGenericRequest "update")
  = Done (newGenericRequest "update", Some "element 2: must be positive integer").
Proof.
  refine (proj1 (C6_uint_list_first_unparsable "1, x,3" ["1"] ["3"] " x"
                   ratingConfig (newGenericRequest "update") eq_refl _ eq_refl)).
  repeat constructor. by exists 1.
Defined.

(** ** C7 *)

(** C7.  With the parameter "a,b,c" the rule ["in"] passes exactly when the
    printed field value is "a", "b" or "c", compared as strings (so "A"
    fails), and fails otherwise; the message of a field error of that rule
    with that parameter is the literal "Must be one of: a, b, c".  In
    general the rule passes exactly on the members of the split parameter
    and the message joins them with ", ". *)
Theorem C7_in_rule (fv : GoValue) (e : FieldError) :
  fe_Tag e = "in" -> fe_Param e = "a,b,c" ->
  (in_rule (mkFieldLevel "a,b,c" fv) = true
   <-> fmt.Sprintf_v fv = "a" \/ fmt.Sprintf_v fv = "b" \/ fmt.Sprintf_v fv = "c")
  /\ (in_rule (mkFieldLevel "a,b,c" fv) = false
      <-> ~ (fmt.Sprintf_v fv = "a" \/ fmt.Sprintf_v fv = "b" \/ fmt.Sprintf_v fv = "c"))
  /\ in_rule (mkFieldLevel "a,b,c" (VString "A")) = false
  /\ getValidationMessage e = "Must be one of: a, b, c"
  /\ (forall fl, in_rule fl = true
                 <-> fmt.Sprintf_v (fl_Field fl) ∈ strings.Split (fl_Param fl) comma)
  /\ (forall e', fe_Tag e' = "in" ->
                 getValidationMessage e'
                 = "Must be one of: " +:+ strings.Join (strings.Split (fe_Param e') comma) ", ").
Proof.
  intros Htag Hparam.
  assert (in_rule (mkFieldLevel "a,b,c" fv) = true
          <-> fmt.Sprintf_v fv = "a" \/ fmt.Sprintf_v fv = "b" \/ fmt.Sprintf_v fv = "c")
    as Hiff.
  { rewrite in_rule_spec. simpl fl_Field. simpl fl_Param.
    change (strings.Split "a,b,c" comma) with ["a"; "b"; "c"].
    rewrite !elem_of_cons, elem_of_nil. tauto. }
  split; [done|]. split.
  { rewrite <- Hiff. by destruct (in_rule _). }
  split; [reflexivity|]. split.
  { unfold getValidationMessage. rewrite Htag, Hparam. reflexivity. }
  split; [apply in_rule_spec|].
  intros e' Htag'. unfold getValidationMessage. rewrite Htag'. simpl.
  by rewrite Replace_Join.
Qed.

(** Witness of C7: the value "b" passes; an error of the rule has the
    literal message. *)
Lemma C7_in_rule_witness :
  in_rule (mkFieldLevel "a,b,c" (VString "b")) = true
  /\ getValidationMessage
       (mkFieldError "in" "a,b,c" reflect.String "Role" (VString "root") "")
     = "Must be one of: a, b, c".
Proof.
  pose proof (C7_in_rule (VString "b")
                (mkFieldError "in" "a,b,c" reflect.String "Role" (VString "root") "")
                eq_refl eq_refl) as (Hpass & _ & _ & Hmsg & _).
  split; [|exact Hmsg].
  apply Hpass. right. left. reflexivity.
Defined.

(** ** C8 *)

(** C8.  On a slice the rule ["unique"] fails exactly when two positions
    hold elements with the same printed form; the message of a field error
    of that rule is "Contains duplicate values".  ["x","x"] fails and
    ["x","y"] passes. *)
Theorem C8_unique_rule (fl : FieldLevel) (e : FieldError) :
  ValueKind (fl_Field fl) = reflect.Slice -> fe_Tag e = "unique" ->
  (unique_rule fl = false
   <-> exists (i j : nat) (s : string),
         i <> j
         /\ (fmt.Sprintf_v <$> Elements (fl_Field fl)) !! i = Some s
         /\ (fmt.Sprintf_v <$> Elements (fl_Field fl)) !! j = Some s)
  /\ getValidationMessage e = "Contains duplicate values"
  /\ unique_rule (mkFieldLevel "" (VStrings ["x"; "x"])) = false
  /\ unique_rule (mkFieldLevel "" (VStrings ["x"; "y"])) = true.
Proof.
  intros Hk Htag. split; [|split; [|split]].
  - rewrite <- not_NoDup_lookup, <- (unique_rule_slice fl Hk).
    by destruct (unique_rule fl).
  - unfold getValidationMessage. by rewrite Htag.
  - apply not_true_iff_false. rewrite unique_rule_slice by done.
    simpl. rewrite NoDup_cons. intros [Hx _]. apply Hx, list_elem_of_here.
  - rewrite unique_rule_slice by done. simpl.
    rewrite !NoDup_cons. repeat split.
    + by intros [= ]%list_elem_of_singleton.
    + by intros ?%elem_of_nil.
    + constructor.
Qed.

(** Witness of C8: the slice ["x","x"], which fails. *)
Lemma C8_unique_rule_witness :
  unique_rule (mkFieldLevel "" (VStrings ["x"; "x"])) = false
  /\ getValidationMessage
       (mkFieldError "unique" "" reflect.Slice "Tags" (VStrings ["x"; "x"]) "")
     = "Contains duplicate values".
Proof.
  pose proof (C8_unique_rule (mkFieldLevel "" (VStrings ["x"; "x"]))
                (mkFieldError "unique" "" reflect.Slice "Tags" (VStrings ["x"; "x"]) "")
                eq_refl eq_refl) as (Hfail & Hmsg & _).
  split; [|exact Hmsg].
  apply Hfail. exists 0%nat, 1%nat, "x". repeat split. discriminate.
Defined.

(** ** C9 *)

Lemma digits_no_comma s :
  all_bytes strconv.is_digit s = true -> no_byte comma s = true.
Proof.
  unfold no_byte. induction s as [|c s IH]; [done|].
  cbn [all_bytes]. intros [Hc Hs]%andb_prop.
  by rewrite (digit_not_comma _ Hc), IH.
Qed.

(** The decimal representation of a [uint64] parses back as an element. *)
Lemma parseElem_FormatUint u :
  0 <= u < 2 ^ 64 -> parseElem (strconv.FormatUint u) = Some u.
Proof.
  intros Hu. unfold parseElem.
  rewrite TrimSpace_digits by (apply FormatUint_digits; lia).
  by apply ParseUint_FormatUint.
Qed.

Lemma parseElem_range v n : parseElem v = Some n -> 0 <= n < 2 ^ 64.
Proof. apply ParseUint_range. Qed.

(** Splitting the re-serialized list gives the decimal representations. *)
Lemma Split_reserialize l :
  l <> [] -> Forall (fun n => 0 <= n) l ->
  strings.Split (reserialize l) comma = strconv.FormatUint <$> l.
Proof.
  intros Hne Hpos. unfold reserialize.
  change "," with (String comma EmptyString).
  apply Split_Join.
  - by destruct l.
  - apply Forall_fmap. eapply Forall_impl; [exact Hpos|].
    intros n Hn. simpl. by apply digits_no_comma, FormatUint_digits.
Qed.

(** C9.  When a raw string coerces to the unsigned-integer list
    [IDs req'], coercing the comma-joined decimal representations of that
    list succeeds as well and gives the same record, hence the same list. *)
Theorem C9_uint_list_reserialize (raw : string) (cfg : ValidationConfig)
    (req req' : GenericRequest) :
  setFieldValue F_IDs raw cfg req = Done (req', None) ->
  setFieldValue F_IDs (reserialize (IDs req')) cfg req = Done (req', None).
Proof.
  intros Hok. apply setFieldValue_IDs_inv in Hok as [Hreq' Hall].
  rewrite Hreq' at 2.
  apply setFieldValue_IDs_ok.
  assert (Forall (fun n => 0 <= n < 2 ^ 64) (IDs req')) as Hrange.
  { clear Hreq'. induction Hall as [|v n values l Hv _ IH]; constructor; [|done].
    by eapply parseElem_range. }
  rewrite Split_reserialize.
  - clear Hall Hreq'. induction Hrange as [|n l Hn _ IH]; constructor; [|done].
    by apply parseElem_FormatUint.
  - pose proof (Split_nonempty raw comma) as Hne. intros Hnil.
    rewrite Hnil in Hall. by inversion Hall.
  - eapply Forall_impl; [exact Hrange|]. simpl. lia.
Qed.

(** Witness of C9: " 7,08 , 18446744073709551615" coerces to
    [7; 8; 2^64-1], which is written "7,8,18446744073709551615". *)
Lemma C9_uint_list_reserialize_witness :
  setFieldValue F_IDs "7,8,18446744073709551615" ratingConfig
    (newGenericRequest "update")
  = Done (with_IDs [7; 8; 18446744073709551615] (newGenericRequest "update"), None).
Proof.
  exact (C9_uint_list_reserialize " 7,08 , 18446744073709551615" ratingConfig
           (newGenericRequest "update")
           (with_IDs [7; 8; 18446744073709551615] (newGenericRequest "update"))
           eq_refl).
Defined.

(** ** C10 *)

Lemma getRawValue_body r cfg :
  Parser cfg = BodyParser -> getRawValue r cfg = (EmptyString, false).
Proof. intros H. unfold getRawValue. by rewrite H. Qed.

(** No line of the loop reads the body of the request. *)
Lemma parseFields_ignores_Body q vars b b' configs st :
  parseFields (mkRequest q vars b) configs st
  = parseFields (mkRequest q vars b') configs st.
Proof.
  revert st. induction configs as [|cfg configs IH]; intros st; [done|].
  rewrite !parseFields_cons.
  change (parseField (mkRequest q vars b') cfg st)
    with (parseField (mkRequest q vars b) cfg st).
  destruct (parseField _ cfg st); [apply IH | done].
Qed.

(** C10 (as amended).  For a descriptor read from the body the lookup
    reports "not present" for every request, and the handler does the same
    whatever the body holds.  When the descriptor names a field of the
    request record, the loop body leaves the record alone and appends the
    error "This field is required" exactly when the descriptor is required;
    then, when no other descriptor assigns the unexported field, the
    handler answers 400 and the errors hold that error at the descriptor's
    position.  A descriptor that is not required changes nothing: the
    handler does what it does without it, so the field keeps its zero value
    unless another descriptor assigns it. *)
Theorem C10_body_field_never_present (cfg : ValidationConfig) :
  Parser cfg = BodyParser ->
  (forall r, getRawValue r cfg = (EmptyString, false))
  /\ (forall V configs group q vars b b',
        ValidateRequest V configs group (mkRequest q vars b)
        = ValidateRequest V configs group (mkRequest q vars b'))
  /\ (forall r field req errors,
        FieldByName (FieldName cfg) = Some field ->
        parseField r cfg (req, errors)
        = Done (req, errors ++ if Required cfg then [requiredError cfg] else []))
  /\ (forall V pre post group r field,
        FieldByName (FieldName cfg) = Some field ->
        Required cfg = true ->
        Forall (writable r) (pre ++ post) ->
        ValidateRequest V (pre ++ cfg :: post) group r
        = mkRun (Done (badRequest (flat_map (fieldErrors r) pre
                                     ++ requiredError cfg
                                     :: flat_map (fieldErrors r) post))) [])
  /\ (forall V pre post group r,
        Required cfg = false ->
        ValidateRequest V (pre ++ cfg :: post) group r
        = ValidateRequest V (pre ++ post) group r).
Proof.
  intros Hbody.
  assert (forall r, (getRawValue r cfg).2 = false) as Habs.
  { intros r. by rewrite getRawValue_body. }
  split; [intros r; by apply getRawValue_body|]. split; [|split; [|split]].
  - intros V configs group q vars b b'.
    apply ValidateRequest_congr, parseFields_ignores_Body.
  - intros r field req errors Hf. by apply (parseField_absent _ _ field).
  - intros V pre post group r field Hf Hreq Hw.
    by apply (required_absent_BadRequest V pre post cfg group r field).
  - intros V pre post group r Hreq.
    apply ValidateRequest_congr. rewrite !parseFields_app.
    destruct (parseFields r pre _) as [[req errors]|msg]; [|done].
    unfold mbind, exec_bind. rewrite parseFields_cons.
    destruct (FieldByName (FieldName cfg)) as [field|] eqn:Hf.
    + rewrite (parseField_absent _ _ field), Hreq, app_nil_r by done. done.
    + by rewrite parseField_unknown.
Qed.

(** Witness of C10: the creation table of [main]; [Name] is required and
    read from the body, and the body holds a name. *)
Lemma C10_body_field_never_present_witness :
  getRawValue (queryRequest [] "{}") (mkValidationConfig "Name" BodyParser true "" "required,min=3,max=50")
  = ("", false)
  /\ ValidateRequest noFieldErrors createUserConfigs "create"
       (queryRequest [] "{}")
     = mkRun (Done (badRequest [mkValidationError "Name" "This field is required" "";
                                mkValidationError "Email" "This field is required" ""]))
         [].
Proof.
  pose proof (C10_body_field_never_present
                (mkValidationConfig "Name" BodyParser true "" "required,min=3,max=50")
                eq_refl) as (Hlookup & _ & _ & Hbad & _).
  split; [apply Hlookup|].
  refine (Hbad noFieldErrors []
            [mkValidationConfig "Email" BodyParser true "" "required,email";
             mkValidationConfig "Tags" BodyParser false ""
               "omitempty,unique,dive,min=2,max=20"]
            "create" (queryRequest [] "{}") F_Name eq_refl eq_refl _).
  repeat constructor; intros Hname; discriminate Hname.
Defined.

(** Counterexample to C10 as stated: a required descriptor read from the
    body whose name is no field of the record produces no error; and a
    field with a body descriptor that is not required does not keep its
    zero value when a query descriptor names it too. *)
Lemma C10_counterexample :
  Parser (unknownConfig BodyParser) = BodyParser
  /\ Required (unknownConfig BodyParser) = true
  /\ ValidateRequest noFieldErrors [unknownConfig BodyParser] "create"
       (queryRequest [] "{}")
     = mkRun (Done (mkResponse StatusOK (ValidJSON (newGenericRequest "create"))))
         [newGenericRequest "create"]
  /\ ValidateRequest noFieldErrors
       [mkValidationConfig "Name" QueryParser false "" "";
        mkValidationConfig "Name" BodyParser false "" ""]
       "update" (queryRequest [("Name", ["Bob"])] "{}")
     = mkRun (Done (mkResponse StatusOK
                      (ValidJSON (with_Name "Bob" (newGenericRequest "update")))))
         [with_Name "Bob" (newGenericRequest "update")].
Proof. repeat split. Qed.

(** * Further properties of main.go *)

(** ** Scalar coercions *)

Lemma decimal_from_ge s n :
  all_bytes strconv.is_digit s = true -> 0 <= n -> n <= decimal_from n s.
Proof.
  revert n. induction s as [|c s IH]; intros n Hs Hn; [simpl; lia|].
  cbn [all_bytes] in Hs. apply andb_prop in Hs as [Hc Hs].
  cbn [decimal_from]. unfold strconv.is_digit in Hc.
  etrans; [|apply IH; [done|lia]]. lia.
Qed.

(** On digits the loop of [ParseUint] computes the decimal value, and
    fails exactly when that value does not fit 64 bits. *)
Lemma ParseUint_loop_digits s n :
  all_bytes strconv.is_digit s = true -> 0 <= n < 2 ^ 64 ->
  strconv.ParseUint_loop s n
  = if decimal_from n s <? 2 ^ 64 then Some (decimal_from n s) else None.
Proof.
  revert n. induction s as [|c s IH]; intros n Hs Hn.
  - simpl. destruct (Z.ltb_spec n (2 ^ 64)); [done|lia].
  - cbn [all_bytes] in Hs. apply andb_prop in Hs as [Hc Hs].
    rewrite ParseUint_loop_step by done. cbn [decimal_from].
    pose proof Hc as Hc'. unfold strconv.is_digit in Hc'.
    destruct (Z.ltb_spec (n * 10 + (code c - 48)) (2 ^ 64)) as [Hlt|Hge].
    + apply IH; [done|lia].
    + pose proof (decimal_from_ge s (n * 10 + (code c - 48)) Hs ltac:(lia)).
      destruct (Z.ltb_spec (decimal_from (n * 10 + (code c - 48)) s) (2 ^ 64));
        [lia|done].
Qed.

Lemma ParseUint_loop_not_digits s n :
  all_bytes strconv.is_digit s = false -> 0 <= n < 2 ^ 64 ->
  strconv.ParseUint_loop s n = None.
Proof.
  revert n. induction s as [|c s IH]; intros n Hs Hn; [done|].
  cbn [all_bytes] in Hs. destruct (strconv.is_digit c) eqn:Hc.
  - rewrite ParseUint_loop_step by done. simpl in Hs.
    destruct (Z.ltb_spec (n * 10 + (code c - 48)) (2 ^ 64)); [|done].
    apply IH; [done|]. unfold strconv.is_digit in Hc. lia.
  - by rewrite ParseUint_loop_cons, Hc.
Qed.

(** [ParseUint] accepts exactly the decimal literals of a [uint64]. *)
Lemma ParseUint_literal s :
  strconv.ParseUint s = if uint64_literal s then Some (decimal s) else None.
Proof.
  destruct s as [|c s]; [done|].
  unfold strconv.ParseUint, uint64_literal, decimal.
  destruct (all_bytes strconv.is_digit (String c s)) eqn:Hd.
  - rewrite ParseUint_loop_digits by (rewrite ?two64; done). done.
  - rewrite ParseUint_loop_not_digits by (rewrite ?two64; done). done.
Qed.

(** X1.  Coercion of the unsigned field [UserID]: the raw text is accepted
    exactly when it is a decimal literal of a [uint64] (not empty, digits
    only, so no sign and no blank, value below [2^64]); the field then
    holds that value.  Otherwise the error is "must be a positive integer"
    and the record is as before. *)
Theorem X1_uint_coercion (raw : string) (cfg : ValidationConfig)
    (req : GenericRequest) :
  setFieldValue F_UserID raw cfg req
  = if uint64_literal raw
    then Done (with_UserID (decimal raw) req, None)
    else Done (req, Some "must be a positive integer").
Proof.
  unfold setFieldValue. cbn [FieldType reflect.KindOf].
  rewrite ParseUint_literal. by destruct (uint64_literal raw).
Qed.

Lemma to_int64_range z : - 2 ^ 63 <= strconv.to_int64 z < 2 ^ 63.
Proof.
  unfold strconv.to_int64.
  pose proof (Z.mod_pos_bound (z + 2 ^ 63) (2 ^ 64) ltac:(done)).
  change (2 ^ 64) with (2 * 2 ^ 63) in *. lia.
Qed.

Lemma to_int64_small z : - 2 ^ 63 <= z < 2 ^ 63 -> strconv.to_int64 z = z.
Proof.
  intros Hz. unfold strconv.to_int64.
  rewrite Z.mod_small; [lia|]. change (2 ^ 64) with (2 * 2 ^ 63). lia.
Qed.

Lemma ParseInt_range s v : strconv.ParseInt s = Some v -> - 2 ^ 63 <= v < 2 ^ 63.
Proof.
  destruct s as [|c s]; [done|]. unfold strconv.ParseInt.
  destruct (strconv.ParseUint _) as [un|]; [|done].
  destruct (_ && _); [done|]. destruct (_ && _); [done|].
  intros [= <-]. destruct (Ascii.eqb c (byte_of 45)); apply to_int64_range.
Qed.

Lemma FormatUint_head u :
  0 <= u -> exists c s, strconv.FormatUint u = String c s /\ strconv.is_digit c = true.
Proof.
  intros Hu. pose proof (FormatUint_digits u Hu) as Hd.
  pose proof (formatBits_nonempty (Z.to_nat (Z.log2 u)) u EmptyString) as Hne.
  unfold strconv.FormatUint in *.
  destruct (strconv.formatBits _ u EmptyString) as [|c s]; [done|].
  exists c, s. split; [done|]. cbn [all_bytes] in Hd.
  by apply andb_prop in Hd as [? _].
Qed.

Lemma digit_not_sign c :
  strconv.is_digit c = true ->
  Ascii.eqb c (byte_of 43) = false /\ Ascii.eqb c (byte_of 45) = false.
Proof.
  rewrite !eqb_code. change (code (byte_of 43)) with 43.
  change (code (byte_of 45)) with 45. unfold strconv.is_digit. lia.
Qed.

(** Parsing the decimal representation of an [int64] gives it back. *)
Lemma ParseInt_FormatInt i :
  - 2 ^ 63 <= i < 2 ^ 63 -> strconv.ParseInt (strconv.FormatInt i) = Some i.
Proof.
  intros Hi. unfold strconv.FormatInt.
  assert (2 ^ 63 = 9223372036854775808) as H63 by reflexivity.
  destruct (Z.ltb_spec i 0) as [Hneg|Hpos].
  - unfold strconv.ParseInt.
    change (Ascii.eqb (byte_of 45) (byte_of 45)) with true.
    rewrite orb_true_r. rewrite ParseUint_FormatUint by (rewrite two64; lia).
    simpl negb. simpl andb.
    destruct (Z.ltb_spec (2 ^ 63) (- i)); [lia|].
    f_equal. destruct (decide (i = - 2 ^ 63)) as [->|Hne]; [done|].
    rewrite (to_int64_small (- i)) by lia. rewrite Z.opp_involutive.
    apply to_int64_small. lia.
  - destruct (FormatUint_head i Hpos) as (c & s & Hfmt & Hc).
    pose proof (ParseUint_FormatUint i ltac:(rewrite two64; lia)) as Hparse.
    rewrite Hfmt in *. unfold strconv.ParseInt.
    destruct (digit_not_sign c Hc) as [-> ->]. simpl orb. cbv iota.
    rewrite Hparse. simpl negb. simpl andb.
    destruct (Z.leb_spec (2 ^ 63) i); [lia|].
    f_equal. apply to_int64_small. lia.
Qed.

(** X2.  Coercion of the signed field [Rating]: the decimal representation
    of every [int64] is accepted and gives that number back; and whatever
    text is accepted, the value assigned fits an [int64]. *)
Theorem X2_int_coercion (i : Z) (cfg : ValidationConfig) (req : GenericRequest) :
  - 2 ^ 63 <= i < 2 ^ 63 ->
  setFieldValue F_Rating (strconv.FormatInt i) cfg req
  = Done (with_Rating i req, None)
  /\ (forall raw req', setFieldValue F_Rating raw cfg req = Done (req', None) ->
                       - 2 ^ 63 <= Rating req' < 2 ^ 63).
Proof.
  intros Hi. split.
  - unfold setFieldValue. cbn [FieldType reflect.KindOf].
    by rewrite ParseInt_FormatInt.
  - intros raw req'. unfold setFieldValue. cbn [FieldType reflect.KindOf].
    destruct (strconv.ParseInt raw) as [v|] eqn:Hv; [|done].
    intros [= <-]. simpl. by eapply ParseInt_range.
Qed.

(** Witness of X2: the least [int64]. *)
Lemma X2_int_coercion_witness :
  setFieldValue F_Rating "-9223372036854775808" ratingConfig
    (newGenericRequest "search")
  = Done (with_Rating (- 9223372036854775808) (newGenericRequest "search"), None).
Proof.
  refine (proj1 (X2_int_coercion (- 9223372036854775808) ratingConfig
                   (newGenericRequest "search") _)).
  split; [apply Z.leb_le | apply Z.ltb_lt]; reflexivity.
Defined.

(** ** The extraction loop and the handler *)

Lemma Set_validationGroup f v req req' :
  Set_ f v req = Done req' -> validationGroup req' = validationGroup req.
Proof.
  unfold Set_. destruct (CanSet f); [|done]. simpl.
  destruct f, v; try done; by intros [= <-].
Qed.

Lemma setFieldValue_validationGroup field raw cfg req req' err :
  setFieldValue field raw cfg req = Done (req', err) ->
  validationGroup req' = validationGroup req.
Proof.
  destruct field.
  - by intros [= <- _].
  - by intros [= <- _].
  - rewrite setFieldValue_Tags. by intros [= <- _].
  - rewrite setFieldValue_IDs. destruct (parse_loop _ _ _); by intros [= <- _].
  - unfold setFieldValue. cbn [FieldType reflect.KindOf].
    destruct (strconv.ParseUint raw); by intros [= <- _].
  - unfold setFieldValue. cbn [FieldType reflect.KindOf].
    destruct (strconv.ParseInt raw); by intros [= <- _].
  - done.
Qed.

Lemma parseField_validationGroup r cfg req errors req' errors' :
  parseField r cfg (req, errors) = Done (req', errors') ->
  validationGroup req' = validationGroup req.
Proof.
  unfold parseField. destruct (FieldByName (FieldName cfg)) as [field|];
    [|by intros [= <- _]].
  destruct (getRawValue r cfg) as [raw found]. destruct found; simpl.
  - destruct (setFieldValue field raw cfg req) as [[req1 err]|msg] eqn:Hset;
      [|done].
    simpl. apply setFieldValue_validationGroup in Hset.
    destruct err; by intros [= <- _].
  - destruct (Required cfg); by intros [= <- _].
Qed.

Lemma parseFields_validationGroup r configs req errors req' errors' :
  parseFields r configs (req, errors) = Done (req', errors') ->
  validationGroup req' = validationGroup req.
Proof.
  revert req errors. induction configs as [|cfg configs IH]; intros req errors.
  - by intros [= <- _].
  - rewrite parseFields_cons.
    destruct (parseField r cfg (req, errors)) as [[req1 errors1]|msg] eqn:Hf;
      [|done].
    simpl. intros Hrest. apply IH in Hrest.
    apply parseField_validationGroup in Hf. congruence.
Qed.

(** X3.  No request can change the validation group: every record handed
    to the validator carries the group the handler was built with. *)
Theorem X3_validation_group_is_kept (V : GenericRequest -> list FieldError)
    (configs : list ValidationConfig) (group : string) (r : Request)
    (rec : GenericRequest) :
  rec ∈ validated (ValidateRequest V configs group r) ->
  validationGroup rec = group.
Proof.
  unfold ValidateRequest.
  destruct (parseFields r configs _) as [[req errors]|msg] eqn:Hloop;
    [|by intros ?%elem_of_nil].
  apply parseFields_validationGroup in Hloop. simpl in Hloop.
  destruct errors as [|e errors]; simpl; [|by intros ?%elem_of_nil].
  destruct (V req); by intros ->%list_elem_of_singleton.
Qed.

(** Witness of X3: the search table and a query that also carries the key
    [validationGroup]. *)
Lemma X3_validation_group_is_kept_witness :
  with_Tags ["tech"] (newGenericRequest "search")
    ∈ validated (ValidateRequest noFieldErrors searchConfigs "search"
                   (queryRequest [("Tags", ["tech"]); ("validationGroup", ["admin"])] ""))
  /\ validationGroup (with_Tags ["tech"] (newGenericRequest "search")) = "search".
Proof.
  assert (with_Tags ["tech"] (newGenericRequest "search")
            ∈ validated (ValidateRequest noFieldErrors searchConfigs "search"
                           (queryRequest [("Tags", ["tech"]);
                                          ("validationGroup", ["admin"])] "")))
    as Hin by apply list_elem_of_here.
  split; [exact Hin|].
  exact (X3_validation_group_is_kept noFieldErrors searchConfigs "search" _ _ Hin).
Defined.

Lemma parseField_stripConfig r cfg st :
  parseField r (stripConfig cfg) st = parseField r cfg st.
Proof. by destruct cfg. Qed.

Lemma parseFields_stripConfig r configs st :
  parseFields r (stripConfig <$> configs) st = parseFields r configs st.
Proof.
  revert st. induction configs as [|cfg configs IH]; intros st; [done|].
  rewrite fmap_cons, !parseFields_cons, parseField_stripConfig.
  destruct (parseField r cfg st); [apply IH | done].
Qed.

(** X4.  The handler uses of a descriptor its field name, its parser and
    its required flag only: the default literals and the rule expressions
    of the descriptors have no effect on what it does. *)
Theorem X4_defaults_and_tags_unused (V : GenericRequest -> list FieldError)
    (configs : list ValidationConfig) (group : string) (r : Request) :
  ValidateRequest V (stripConfig <$> configs) group r
  = ValidateRequest V configs group r.
Proof. apply ValidateRequest_congr, parseFields_stripConfig. Qed.

(** X5.  What a written response can be.  A data response has status 200
    and carries the record that was handed to the validator, which
    reported nothing.  An error response repeats the status as its code and
    lists at least one error: either status 400 with the message "Invalid
    request data" and no call of the validator, or status 422 with the
    message "Validation failed" and one error per field error of the
    validator, in order, for the one record it was handed. *)
Theorem X5_response_invariants (V : GenericRequest -> list FieldError)
    (configs : list ValidationConfig) (group : string) (r : Request)
    (resp : Response) :
  response (ValidateRequest V configs group r) = Done resp ->
  match Written resp with
  | ValidJSON data =>
      StatusCode resp = 200
      /\ validated (ValidateRequest V configs group r) = [data]
      /\ V data = []
  | ErrorJSON e =>
      er_Code e = StatusCode resp
      /\ er_Errors e <> []
      /\ ((StatusCode resp = 400 /\ er_Message e = "Invalid request data"
           /\ validated (ValidateRequest V configs group r) = [])
          \/ (StatusCode resp = 422 /\ er_Message e = "Validation failed"
              /\ exists req,
                  validated (ValidateRequest V configs group r) = [req]
                  /\ ve_Field <$> er_Errors e = fe_StructField <$> V req
                  /\ ve_Message <$> er_Errors e = getValidationMessage <$> V req))
  end.
Proof.
  unfold ValidateRequest.
  destruct (parseFields r configs _) as [[req errors]|msg]; [|done].
  destruct errors as [|e errors]; simpl.
  - destruct (V req) as [|fe fes] eqn:HV; simpl; intros [= <-]; simpl.
    + by repeat split.
    + split; [done|]. split; [discriminate|].
      right. split; [done|]. split; [done|].
      exists req. rewrite HV. split; [done|].
      split; simpl; f_equal; by rewrite <- list_fmap_compose.
  - intros [= <-]. simpl. split; [done|]. split; [done|]. by left.
Qed.

(** Witness of X5: the update table without the route variable. *)
Lemma X5_response_invariants_witness :
  er_Code (mkErrorResponse StatusBadRequest "Invalid request data"
             [mkValidationError "UserID" "This field is required" ""])
  = StatusCode (badRequest [mkValidationError "UserID" "This field is required" ""]).
Proof.
  exact (proj1 (X5_response_invariants noFieldErrors updateUserConfigs "update"
                  (queryRequest [] "")
                  (badRequest [mkValidationError "UserID" "This field is required" ""])
                  eq_refl)).
Defined.

Lemma fieldErrors_length r cfg : (length (fieldErrors r cfg) <= 1)%nat.
Proof.
  unfold fieldErrors. destruct (FieldByName _); [|simpl; lia].
  destruct (getRawValue r cfg) as [raw found]. destruct found; simpl.
  - destruct (coerceError _ _); simpl; lia.
  - destruct (Required cfg); simpl; lia.
Qed.

(** X6.  When no descriptor makes the loop assign the unexported field,
    the loop visits every descriptor: each one adds its own errors, at most
    one, named after its field, and the collected errors are those of all
    descriptors in the order of the table.  When there is one, the handler
    answers 400 with exactly these errors and does not call the validator;
    when there is none, the assembled record is handed to the validator. *)
Theorem X6_all_errors_collected (V : GenericRequest -> list FieldError)
    (configs : list ValidationConfig) (group : string) (r : Request) :
  Forall (writable r) configs ->
  (forall cfg req errors, cfg ∈ configs ->
      (length (fieldErrors r cfg) <= 1)%nat
      /\ Forall (fun e => ve_Field e = FieldName cfg) (fieldErrors r cfg)
      /\ exists req', parseField r cfg (req, errors)
                      = Done (req', errors ++ fieldErrors r cfg))
  /\ exists req,
       parseFields r configs (newGenericRequest group, [])
       = Done (req, flat_map (fieldErrors r) configs)
       /\ (flat_map (fieldErrors r) configs <> [] ->
           ValidateRequest V configs group r
           = mkRun (Done (badRequest (flat_map (fieldErrors r) configs))) [])
       /\ (flat_map (fieldErrors r) configs = [] ->
           validated (ValidateRequest V configs group r) = [req]).
Proof.
  intros Hw. split.
  - intros cfg req errors Hin. split; [apply fieldErrors_length|]. split.
    + apply Forall_forall. intros e. apply fieldErrors_Field.
    + apply parseField_Done. by apply (proj1 (Forall_forall _ _) Hw).
  - by apply ValidateRequest_outcome.
Qed.

(** Witness of X6: the update table, without its route variable and with
    a bad list of identifiers. *)
Lemma X6_all_errors_collected_witness :
  ValidateRequest noFieldErrors updateUserConfigs "update"
    (queryRequest [("IDs", ["1,-2"])] "")
  = mkRun (Done (badRequest
                   [mkValidationError "UserID" "This field is required" "";
                    mkValidationError "IDs" "element 2: must be positive integer" "1,-2"]))
      [].
Proof.
  assert (Forall (writable (queryRequest [("IDs", ["1,-2"])] "")) updateUserConfigs)
    as Hw by (repeat constructor; intros Hname; discriminate Hname).
  destruct (X6_all_errors_collected noFieldErrors updateUserConfigs "update"
              (queryRequest [("IDs", ["1,-2"])] "") Hw)
    as (_ & req & _ & Hbad & _).
  apply Hbad. discriminate.
Defined.

Lemma writable_or_assigns r cfg : writable r cfg \/ assignsUnexported r cfg.
Proof.
  destruct (decide (FieldName cfg = "validationGroup")) as [Hname|Hname].
  - destruct ((getRawValue r cfg).2) eqn:Hfound.
    + by right.
    + left. by apply writable_absent.
  - left. by apply writable_exported.
Qed.

Lemma Forall_writable_or_Exists r configs :
  Forall (writable r) configs \/ Exists (assignsUnexported r) configs.
Proof.
  induction configs as [|cfg configs [IH|IH]].
  - left. constructor.
  - destruct (writable_or_assigns r cfg) as [Hw|Ha].
    + left. by constructor.
    + right. by constructor.
  - right. by constructor.
Qed.

(** X7.  The handler panics exactly when some descriptor names the
    unexported field [validationGroup] and its raw value is found; it then
    writes no response and has not called the validator. *)
Theorem X7_panic_iff (V : GenericRequest -> list FieldError)
    (configs : list ValidationConfig) (group : string) (r : Request) :
  ((exists msg, response (ValidateRequest V configs group r) = Panic msg)
   <-> Exists (assignsUnexported r) configs)
  /\ (forall msg, response (ValidateRequest V configs group r) = Panic msg ->
                  validated (ValidateRequest V configs group r) = []).
Proof.
  split; [split|].
  - intros [msg Hpanic].
    destruct (Forall_writable_or_Exists r configs) as [Hw|Hex]; [|done].
    destruct (parseFields_Done r configs (newGenericRequest group) [] Hw)
      as [req Hdone].
    unfold ValidateRequest in Hpanic. rewrite Hdone in Hpanic.
    simpl in Hpanic. destruct (flat_map _ _); [|done]. by destruct (V req).
  - intros Hex.
    destruct (parseFields_Panic r configs (newGenericRequest group, []))
      as [msg Hpanic].
    { intros Hw. apply Exists_exists in Hex as (cfg & Hin & Hname & Hfound).
      apply (proj1 (Forall_forall _ _) Hw) in Hin. apply Hin in Hname.
      congruence. }
    exists msg. by rewrite (ValidateRequest_Panic V _ _ _ msg).
  - intros msg. unfold ValidateRequest.
    destruct (parseFields r configs _) as [[req errors]|msg']; [|done].
    destruct errors; simpl; [|done]. by destruct (V req).
Qed.

Lemma setFieldValue_not_required field raw cfg req req' msg :
  setFieldValue field raw cfg req = Done (req', Some msg) ->
  msg <> "This field is required".
Proof.
  destruct field.
  - done.
  - done.
  - by rewrite setFieldValue_Tags.
  - rewrite setFieldValue_IDs.
    destruct (parse_loop _ _ _) as [err|] eqn:Hloop; [|done].
    apply parse_loop_error in Hloop as [n ->]. by intros [= _ <-].
  - unfold setFieldValue. cbn [FieldType reflect.KindOf].
    destruct (strconv.ParseUint raw); [done|]. by intros [= _ <-].
  - unfold setFieldValue. cbn [FieldType reflect.KindOf].
    destruct (strconv.ParseInt raw); [done|]. by intros [= _ <-].
  - done.
Qed.

(** X8.  The required flag only looks at presence: for a raw value that is
    found, be it the empty string, the loop body never reports "This field
    is required"; it adds at most one error, which is a coercion error
    carrying the field name and the raw text. *)
Theorem X8_present_is_never_required (r : Request) (cfg : ValidationConfig)
    (raw : string) (req req' : GenericRequest)
    (errors errors' : list ValidationError) :
  getRawValue r cfg = (raw, true) ->
  parseField r cfg (req, errors) = Done (req', errors') ->
  exists new,
    errors' = errors ++ new
    /\ (length new <= 1)%nat
    /\ Forall (fun e => ve_Field e = FieldName cfg /\ ve_Value e = raw
                        /\ ve_Message e <> "This field is required") new.
Proof.
  intros Hraw. unfold parseField. rewrite Hraw.
  destruct (FieldByName (FieldName cfg)) as [field|].
  - simpl.
    destruct (setFieldValue field raw cfg req) as [[req1 err]|msg] eqn:Hset;
      [|done].
    simpl. destruct err as [msg|]; intros [= <- <-].
    + eexists. split; [done|]. split; [simpl; lia|].
      repeat constructor. simpl. by eapply setFieldValue_not_required.
    + exists []. rewrite app_nil_r. by repeat constructor.
  - intros [= <- <-]. exists []. rewrite app_nil_r. by repeat constructor.
Qed.

(** Witness of X8: the route variable [UserID] is there but empty. *)
Lemma X8_present_is_never_required_witness :
  exists new,
    [mkValidationError "UserID" "must be a positive integer" ""] = [] ++ new
    /\ (length new <= 1)%nat
    /\ Forall (fun e => ve_Field e = "UserID" /\ ve_Value e = ""
                        /\ ve_Message e <> "This field is required") new.
Proof.
  exact (X8_present_is_never_required
           (mkRequest ∅ {["UserID" := ""]} "")
           (mkValidationConfig "UserID" ParamParser true "" "required,min=1")
           "" (newGenericRequest "update") (newGenericRequest "update")
           [] [mkValidationError "UserID" "must be a positive integer" ""]
           eq_refl eq_refl).
Defined.

(** The 422 answer for a validator that reports one error of the rule
    [min] on [Name]. *)
Example name_too_short :
  ValidateRequest
    (fun req => [mkFieldError "min" "3" reflect.String "Name" (VString (Name req)) ""])
    [mkValidationConfig "Name" QueryParser true "" "required,min=3,max=50"] "create"
    (queryRequest [("Name", ["Al"])] "")
  = mkRun (Done (mkResponse StatusUnprocessableEntity
                   (ErrorJSON (mkErrorResponse StatusUnprocessableEntity
                                 "Validation failed"
                                 [mkValidationError "Name"
                                    "Minimum 3 characters required" "Al"]))))
      [with_Name "Al" (newGenericRequest "create")].
Proof. reflexivity. Qed.

(** ** Trimming twice, and string lists written again as text *)

Lemma all_bytes_app P a b :
  all_bytes P (a +:+ b) = all_bytes P a && all_bytes P b.
Proof.
  induction a as [|c a IH]; [done|]. simpl. by rewrite IH, andb_assoc.
Qed.

Lemma TrimLeft_cons c1 s1 :
  strings.TrimLeft (String c1 s1) =
    if strings.is_space1 c1 then strings.TrimLeft s1
    else match s1 with
         | String c2 s2 =>
             if strings.is_space2 c1 c2 then strings.TrimLeft s2
             else match s2 with
                  | String c3 s3 =>
                      if strings.is_space3 c1 c2 c3 then strings.TrimLeft s3
                      else String c1 s1
                  | EmptyString => String c1 s1
                  end
         | EmptyString => String c1 s1
         end.
Proof. reflexivity. Qed.

(** What [TrimLeft] returns is a tail of its argument that starts with no
    white-space rune. *)
Lemma TrimLeft_spec_bounded (n : nat) s :
  (String.length s <= n)%nat ->
  starts_space (strings.TrimLeft s) = false
  /\ exists w, s = w +:+ strings.TrimLeft s.
Proof.
  revert s. induction n as [|n IH]; intros s Hlen.
  - destruct s; [|simpl in Hlen; lia]. split; [done | by exists EmptyString].
  - destruct s as [|c1 s1]; [split; [done | by exists EmptyString]|].
    simpl in Hlen. rewrite TrimLeft_cons.
    destruct (strings.is_space1 c1) eqn:H1.
    { destruct (IH s1 ltac:(lia)) as [Hs [w Hw]]. split; [done|].
      exists (String c1 w). exact (f_equal (String c1) Hw). }
    destruct s1 as [|c2 s2].
    { split; [simpl; by rewrite H1 | by exists EmptyString]. }
    simpl in Hlen. destruct (strings.is_space2 c1 c2) eqn:H2.
    { destruct (IH s2 ltac:(lia)) as [Hs [w Hw]]. split; [done|].
      exists (String c1 (String c2 w)).
      exact (f_equal (fun x => String c1 (String c2 x)) Hw). }
    destruct s2 as [|c3 s3].
    { split; [simpl; by rewrite H1, H2 | by exists EmptyString]. }
    simpl in Hlen. destruct (strings.is_space3 c1 c2 c3) eqn:H3.
    { destruct (IH s3 ltac:(lia)) as [Hs [w Hw]]. split; [done|].
      exists (String c1 (String c2 (String c3 w))).
      exact (f_equal (fun x => String c1 (String c2 (String c3 x))) Hw). }
    split; [simpl; by rewrite H1, H2, H3 | by exists EmptyString].
Qed.

Lemma TrimLeft_starts s : starts_space (strings.TrimLeft s) = false.
Proof. by apply (TrimLeft_spec_bounded (String.length s)). Qed.

Lemma TrimLeft_suffix s : exists w, s = w +:+ strings.TrimLeft s.
Proof. by apply (TrimLeft_spec_bounded (String.length s)). Qed.

Lemma TrimLeft_fixed s : starts_space s = false -> strings.TrimLeft s = s.
Proof.
  destruct s as [|c1 s1]; [done|]. rewrite TrimLeft_cons. simpl.
  intros [H1 H]%orb_false_elim. rewrite H1.
  destruct s1 as [|c2 s2]; [done|].
  apply orb_false_elim in H as [H2 H]. rewrite H2.
  destruct s2 as [|c3 s3]; [done|]. by rewrite H.
Qed.

Lemma TrimRight_prefix s : exists w, s = strings.TrimRight s +:+ w.
Proof.
  induction s as [|c s [w IH]]; [by exists EmptyString|].
  rewrite TrimRight_cons. destruct (strings.space_rune _).
  - by exists (String c s).
  - exists w. exact (f_equal (String c) IH).
Qed.

Lemma TrimRight_idempotent s :
  strings.TrimRight (strings.TrimRight s) = strings.TrimRight s.
Proof.
  induction s as [|c s IH]; [done|].
  rewrite TrimRight_cons.
  destruct (strings.space_rune (String c (strings.TrimRight s))) eqn:Hsp; [done|].
  by rewrite TrimRight_cons, IH, Hsp.
Qed.

Lemma starts_space_prefix p w :
  starts_space (p +:+ w) = false -> starts_space p = false.
Proof.
  destruct p as [|c1 [|c2 [|c3 p]]]; simpl; try done.
  - by intros [-> _]%orb_false_elim.
  - intros [-> H]%orb_false_elim. by apply orb_false_elim in H as [-> _].
Qed.

(** Trimming a trimmed string changes nothing. *)
Lemma TrimSpace_idempotent s :
  strings.TrimSpace (strings.TrimSpace s) = strings.TrimSpace s.
Proof.
  unfold strings.TrimSpace.
  destruct (TrimRight_prefix (strings.TrimLeft s)) as [w Hw].
  rewrite (TrimLeft_fixed (strings.TrimRight (strings.TrimLeft s))).
  - apply TrimRight_idempotent.
  - apply (starts_space_prefix _ w). rewrite <- Hw. apply TrimLeft_starts.
Qed.

(** Trimming keeps a string free of a byte it does not hold. *)
Lemma TrimSpace_no_byte sep s :
  no_byte sep s = true -> no_byte sep (strings.TrimSpace s) = true.
Proof.
  unfold no_byte, strings.TrimSpace. intros Hs.
  destruct (TrimLeft_suffix s) as [w1 Hw1].
  destruct (TrimRight_prefix (strings.TrimLeft s)) as [w2 Hw2].
  rewrite Hw1, all_bytes_app in Hs. apply andb_prop in Hs as [_ Hs].
  rewrite Hw2, all_bytes_app in Hs. by apply andb_prop in Hs as [Hs _].
Qed.

(** The parts of a split hold no separator. *)
Lemma Split_no_byte s sep :
  Forall (fun v => no_byte sep v = true) (strings.Split s sep).
Proof.
  induction s as [|c s IH]; [by repeat constructor|]. simpl.
  destruct (Ascii.eqb c sep) eqn:Hc; [by constructor|].
  pose proof (Split_nonempty s sep).
  destruct (strings.Split s sep) as [|h t]; [done|].
  apply Forall_cons in IH as [Hh Ht]. constructor; [|done].
  unfold no_byte in *. simpl. by rewrite Hc, Hh.
Qed.

(** X9.  A coerced string list written again as text, its elements joined
    with [","], coerces to the same list: the elements hold no comma and
    are already trimmed. *)
Theorem X9_string_list_reserialize (raw : string) (cfg : ValidationConfig)
    (req req' : GenericRequest) :
  setFieldValue F_Tags raw cfg req = Done (req', None) ->
  setFieldValue F_Tags (strings.Join (Tags req') ",") cfg req = Done (req', None).
Proof.
  rewrite !setFieldValue_Tags. intros [= <-]. simpl Tags. do 2 f_equal.
  unfold with_Tags. f_equal.
  change "," with (String comma EmptyString).
  rewrite Split_Join.
  - rewrite <- list_fmap_compose. apply list_fmap_ext.
    intros i v _. apply TrimSpace_idempotent.
  - pose proof (Split_nonempty raw comma). by destruct (strings.Split raw comma).
  - apply Forall_fmap. eapply Forall_impl; [apply Split_no_byte|].
    intros v Hv. by apply TrimSpace_no_byte.
Qed.

(** Witness of X9: " tech , sports,," is written again "tech,sports,,". *)
Lemma X9_string_list_reserialize_witness :
  setFieldValue F_Tags "tech,sports,," ratingConfig (newGenericRequest "search")
  = Done (with_Tags ["tech"; "sports"; ""; ""] (newGenericRequest "search"), None).
Proof.
  exact (X9_string_list_reserialize " tech , sports,," ratingConfig
           (newGenericRequest "search")
           (with_Tags ["tech"; "sports"; ""; ""] (newGenericRequest "search"))
           eq_refl).
Defined.

(** ** The rule ["unique"] on the slices of the record *)



(** * Properties of the text unmarshalers (src/unnamed/part_000) *)

Section TextSlices.
Import textslices.

Lemma Uint64Slice_loop_cons part rest u :
  Uint64Slice_loop (part :: rest) u =
    if String.eqb (strings.TrimSpace part) "" then Uint64Slice_loop rest u
    else match strconv.ParseUint (strings.TrimSpace part) with
         | None => (u, Some (InvalidUint64 (strings.TrimSpace part)))
         | Some num => Uint64Slice_loop rest (u ++ [num])
         end.
Proof. reflexivity. Qed.

Lemma kept_cons part rest :
  filter (fun p => p <> EmptyString) (strings.TrimSpace <$> part :: rest)
  = if String.eqb (strings.TrimSpace part) ""
    then filter (fun p => p <> EmptyString) (strings.TrimSpace <$> rest)
    else strings.TrimSpace part
         :: filter (fun p => p <> EmptyString) (strings.TrimSpace <$> rest).
Proof.
  rewrite fmap_cons.
  destruct (String.eqb_spec (strings.TrimSpace part) "") as [Heq|Hne].
  - rewrite filter_cons_False; [done|]. by intros ?.
  - by rewrite filter_cons_True.
Qed.

(** All the kept parts parse: the slice receives their values, in order. *)
Lemma Uint64Slice_loop_ok parts u l :
  Forall2 (fun p n => strconv.ParseUint p = Some n)
    (filter (fun p => p <> EmptyString) (strings.TrimSpace <$> parts)) l ->
  Uint64Slice_loop parts u = (u ++ l, None).
Proof.
  revert u l. induction parts as [|part parts IH]; intros u l.
  - intros Hl. inversion Hl. by rewrite app_nil_r.
  - rewrite kept_cons, Uint64Slice_loop_cons.
    destruct (String.eqb (strings.TrimSpace part) ""); [apply IH|].
    intros Hl. inversion Hl as [|p n ps l' Hp Hl' Ep El]; subst.
    rewrite Hp, (IH _ l') by done. by rewrite <- app_assoc.
Qed.

(** A kept part does not parse: the loop stops there, with the values of
    the parts before it in the slice. *)
Lemma Uint64Slice_loop_bad parts u good bad rest l :
  filter (fun p => p <> EmptyString) (strings.TrimSpace <$> parts)
  = good ++ bad :: rest ->
  Forall2 (fun p n => strconv.ParseUint p = Some n) good l ->
  strconv.ParseUint bad = None ->
  Uint64Slice_loop parts u = (u ++ l, Some (InvalidUint64 bad)).
Proof.
  intros Hkept Hgood Hbad. revert u good l Hkept Hgood.
  induction parts as [|part parts IH]; intros u good l Hkept Hgood.
  - by destruct good.
  - rewrite kept_cons in Hkept. rewrite Uint64Slice_loop_cons.
    destruct (String.eqb (strings.TrimSpace part) ""); [by eapply IH|].
    destruct Hgood as [|p n good l Hp Hgood].
    + injection Hkept as -> _. by rewrite Hbad, app_nil_r.
    + injection Hkept as -> Hkept. rewrite Hp.
      rewrite (IH (u ++ [n]) good l) by done. by rewrite <- app_assoc.
Qed.

(** X11.  [Uint64Slice.UnmarshalText] on a text that is not empty: the
    parts of the split are trimmed and the empty ones are skipped.  When
    all the others parse, the slice becomes the list of their values and
    there is no error.  When one does not, the error names that part, and
    the slice is left holding the values of the parts before it, not what
    it held before the call. *)
Theorem X11_uint64_slice_unmarshal (text : string) (u : list Z) :
  text <> EmptyString ->
  (forall l,
      Forall2 (fun p n => strconv.ParseUint p = Some n) (nonblank_parts text) l ->
      Uint64Slice_UnmarshalText text u = (l, None))
  /\ (forall good bad rest l,
        nonblank_parts text = good ++ bad :: rest ->
        Forall2 (fun p n => strconv.ParseUint p = Some n) good l ->
        strconv.ParseUint bad = None ->
        Uint64Slice_UnmarshalText text u = (l, Some (InvalidUint64 bad))).
Proof.
  intros Hne. unfold Uint64Slice_UnmarshalText.
  destruct (String.eqb_spec text "") as [Heq|_]; [done|]. split.
  - intros l Hl. by rewrite (Uint64Slice_loop_ok _ [] l).
  - intros good bad rest l Hkept Hgood Hbad.
    by rewrite (Uint64Slice_loop_bad _ [] good bad rest l).
Qed.

(** Witness of X11: "1, ,x,3" stops at "x" and leaves [1] in a slice that
    held [7; 8]. *)
Lemma X11_uint64_slice_unmarshal_witness :
  Uint64Slice_UnmarshalText "1, ,x,3" [7; 8] = ([1], Some (InvalidUint64 "x")).
Proof.
  refine (proj2 (X11_uint64_slice_unmarshal "1, ,x,3" [7; 8] _)
            ["1"] "x" ["3"] [1] eq_refl _ eq_refl).
  - discriminate.
  - by repeat constructor.
Defined.

Lemma parseElem_not_blank v n :
  parseElem v = Some n -> strings.TrimSpace v <> EmptyString.
Proof. unfold parseElem. by intros H Heq; rewrite Heq in H. Qed.

Lemma kept_of_parsed values l :
  Forall2 (fun v n => parseElem v = Some n) values l ->
  Forall2 (fun p n => strconv.ParseUint p = Some n)
    (filter (fun p => p <> EmptyString) (strings.TrimSpace <$> values)) l.
Proof.
  induction 1 as [|v n values l Hv _ IH]; [constructor|].
  rewrite fmap_cons, filter_cons_True by by eapply parseElem_not_blank.
  by constructor.
Qed.

(** X12.  Wherever the coercion of main.go accepts a raw list of unsigned
    integers, [Uint64Slice.UnmarshalText] accepts it too and gives the
    same list, whatever its slice held before. *)
Theorem X12_uint64_slice_agrees (raw : string) (cfg : ValidationConfig)
    (req req' : GenericRequest) (u : list Z) :
  setFieldValue F_IDs raw cfg req = Done (req', None) ->
  Uint64Slice_UnmarshalText raw u = (IDs req', None).
Proof.
  intros Hok. apply setFieldValue_IDs_inv in Hok as [_ Hall].
  unfold Uint64Slice_UnmarshalText.
  destruct (String.eqb_spec raw "") as [->|_].
  - simpl in Hall. inversion Hall as [|v n vs l Hv]; subst. done.
  - by rewrite (Uint64Slice_loop_ok _ [] (IDs req')) by by apply kept_of_parsed.
Qed.

(** Witness of X12: "7, 8" is [7; 8] for both. *)
Lemma X12_uint64_slice_agrees_witness :
  Uint64Slice_UnmarshalText "7, 8" [1]
  = (IDs (with_IDs [7; 8] (newGenericRequest "update")), None).
Proof.
  exact (X12_uint64_slice_agrees "7, 8" ratingConfig (newGenericRequest "update")
           (with_IDs [7; 8] (newGenericRequest "update")) [1] eq_refl).
Defined.

Lemma reserialize_nonempty n l : reserialize (n :: l) <> EmptyString.
Proof.
  unfold reserialize. rewrite fmap_cons.
  pose proof (formatBits_nonempty (Z.to_nat (Z.log2 n)) n EmptyString) as Hne.
  fold (strconv.FormatUint n) in Hne.
  destruct (strconv.FormatUint n) as [|c s]; [done|].
  by destruct (strconv.FormatUint <$> l).
Qed.

(** X13.  Writing a list of [uint64] as text and unmarshaling it gives the
    list back, unless the list is empty: its text is the empty string, for
    which the slice is left as it was. *)
Theorem X13_uint64_slice_round_trip (l u : list Z) :
  Forall (fun n => 0 <= n < 2 ^ 64) l ->
  Uint64Slice_UnmarshalText (reserialize l) u
  = (match l with [] => u | _ => l end, None).
Proof.
  intros Hl. destruct l as [|n l]; [done|].
  unfold Uint64Slice_UnmarshalText.
  destruct (String.eqb_spec (reserialize (n :: l)) "") as [Heq|_];
    [by apply reserialize_nonempty in Heq|].
  rewrite Split_reserialize.
  - rewrite (Uint64Slice_loop_ok _ [] (n :: l)); [done|].
    apply kept_of_parsed. clear u.
    induction Hl as [|k ks Hk _ IH]; constructor; [|done].
    by apply parseElem_FormatUint.
  - done.
  - eapply Forall_impl; [exact Hl|]. simpl. lia.
Qed.

(** Witness of X13: the empty list does not clear the slice. *)
Lemma X13_uint64_slice_round_trip_witness :
  Uint64Slice_UnmarshalText (reserialize []) [7; 8] = ([7; 8], None)
  /\ Uint64Slice_UnmarshalText (reserialize [3; 0]) [7; 8] = ([3; 0], None).
Proof.
  split.
  - exact (X13_uint64_slice_round_trip [] [7; 8] ltac:(constructor)).
  - refine (X13_uint64_slice_round_trip [3; 0] [7; 8] _).
    repeat constructor; by (apply Z.leb_le || apply Z.ltb_lt).
Defined.

Lemma StringSlice_loop_spec vals pre :
  StringSlice_loop (length pre) vals (pre ++ vals)
  = pre ++ (strings.TrimSpace <$> vals).
Proof.
  revert pre. induction vals as [|v vals IH]; intros pre; [done|].
  simpl. rewrite insert_app_r_alt by lia. rewrite Nat.sub_diag. simpl.
  rewrite (cons_middle _ pre), app_assoc.
  replace (S (length pre)) with (length (pre ++ [strings.TrimSpace v]))
    by (rewrite length_app; simpl; lia).
  by rewrite IH, <- app_assoc.
Qed.

(** X14.  [StringSlice.UnmarshalText] never fails and computes the list
    that the coercion of main.go assigns to a string-list field: the parts
    of the split, each trimmed; so it has one more element than the text
    has commas. *)
Theorem X14_string_slice_agrees (text : string) (cfg : ValidationConfig)
    (req : GenericRequest) :
  StringSlice_UnmarshalText text
  = (strings.TrimSpace <$> strings.Split text comma, None)
  /\ setFieldValue F_Tags text cfg req
     = Done (with_Tags (StringSlice_UnmarshalText text).1 req, None)
  /\ length (StringSlice_UnmarshalText text).1 = S (count_byte comma text).
Proof.
  assert (StringSlice_UnmarshalText text
          = (strings.TrimSpace <$> strings.Split text comma, None)) as Heq.
  { unfold StringSlice_UnmarshalText. f_equal.
    exact (StringSlice_loop_spec (strings.Split text comma) []). }
  rewrite Heq. split; [done|]. split.
  - apply setFieldValue_Tags.
  - simpl. by rewrite length_fmap, Split_length.
Qed.

End TextSlices.

(** * Properties of main2.go *)

Lemma mapToStruct_loop_cons m i f rest writes :
  main2.mapToStruct_loop m i (f :: rest) writes =
    if String.eqb (main2.sf_query f) "" then main2.mapToStruct_loop m (S i) rest writes
    else
      match m !! main2.sf_query f with
      | None => main2.mapToStruct_loop m (S i) rest writes
      | Some value =>
          match reflect.KindOf (main2.sf_Type f) with
          | reflect.String =>
              writes' ← main2.setField f i (VString value) writes;
              main2.mapToStruct_loop m (S i) rest writes'
          | reflect.Int | reflect.Int64 =>
              match strconv.ParseInt value with
              | None => Done (writes, Some (main2.mkNumError "ParseInt" value))
              | Some num =>
                  writes' ← main2.setField f i (VInt num) writes;
                  main2.mapToStruct_loop m (S i) rest writes'
              end
          | reflect.Uint | reflect.Uint64 =>
              match strconv.ParseUint value with
              | None => Done (writes, Some (main2.mkNumError "ParseUint" value))
              | Some num =>
                  writes' ← main2.setField f i (VUint num) writes;
                  main2.mapToStruct_loop m (S i) rest writes'
              end
          | reflect.Slice =>
              match reflect.KindOf (reflect.Elem (main2.sf_Type f)) with
              | reflect.String =>
                  writes' ← main2.setField f i
                    (VStrings (strings.Split value comma)) writes;
                  main2.mapToStruct_loop m (S i) rest writes'
              | _ => main2.mapToStruct_loop m (S i) rest writes
              end
          | _ => main2.mapToStruct_loop m (S i) rest writes
          end
      end.
Proof. reflexivity. Qed.

Lemma mapToStruct_loop_skip m i fields writes :
  Forall (fun f => main2.sf_query f = EmptyString \/ m !! main2.sf_query f = None)
    fields ->
  main2.mapToStruct_loop m i fields writes = Done (writes, None).
Proof.
  intros Hskip. revert i.
  induction Hskip as [|f fields [Htag|Hkey] _ IH]; intros i; [done| |].
  - rewrite mapToStruct_loop_cons, Htag. apply IH.
  - rewrite mapToStruct_loop_cons, Hkey.
    destruct (String.eqb _ _); apply IH.
Qed.

(** X15.  [mapToStruct] writes nothing and returns no error when every
    field of the struct has no [query] tag or a tag that is no key of the
    map.  No field of [User] has a [query] tag: for every query
    [ParseQuery] leaves a [User] as it is and reports no error. *)
Theorem X15_untagged_fields_untouched (m : gmap string string)
    (fields : list main2.StructField) :
  Forall (fun f => main2.sf_query f = EmptyString \/ m !! main2.sf_query f = None)
    fields ->
  main2.mapToStruct m fields = Done ([], None)
  /\ (forall queries, main2.ParseQuery queries main2.UserType = Done ([], None)).
Proof.
  intros Hskip. split; [by apply mapToStruct_loop_skip|].
  intros queries. unfold main2.ParseQuery, main2.mapToStruct.
  rewrite mapToStruct_loop_skip; [done|].
  repeat constructor; by left.
Qed.

(** Witness of X15: a struct with the tagged field [page] and a query
    without that key. *)
Lemma X15_untagged_fields_untouched_witness :
  main2.mapToStruct {["limit" := "10"]}
    [main2.mkStructField "Page" "page" (reflect.Basic reflect.Int) true;
     main2.mkStructField "Name" "" (reflect.Basic reflect.String) true]
  = Done ([], None).
Proof.
  refine (proj1 (X15_untagged_fields_untouched {["limit" := "10"]}
                   [main2.mkStructField "Page" "page" (reflect.Basic reflect.Int) true;
                    main2.mkStructField "Name" "" (reflect.Basic reflect.String) true]
                   _)).
  constructor; [by right|]. constructor; [by left|]. constructor.
Defined.

Lemma mapToStruct_loop_app m i pre post writes :
  main2.mapToStruct_loop m i (pre ++ post) writes =
    ('(w, e) ← main2.mapToStruct_loop m i pre writes;
     match e with
     | None => main2.mapToStruct_loop m (i + length pre) post w
     | Some _ => Done (w, e)
     end).
Proof.
  revert i writes. induction pre as [|f pre IH]; intros i writes.
  - simpl. by rewrite Nat.add_0_r.
  - change ((f :: pre) ++ post) with (f :: (pre ++ post)).
    rewrite !mapToStruct_loop_cons.
    replace (i + length (f :: pre))%nat with (S i + length pre)%nat
      by (simpl; lia).
    destruct (String.eqb _ _); [apply IH|].
    destruct (m !! _) as [value|]; [|apply IH].
    destruct (reflect.KindOf (main2.sf_Type f)); try apply IH.
    all: try (destruct (strconv.ParseInt value); [|done]).
    all: try (destruct (strconv.ParseUint value); [|done]).
    all: try (destruct (reflect.KindOf (reflect.Elem _)); try apply IH).
    all: unfold main2.setField; destruct (main2.sf_exported f); [apply IH|done].
Qed.

(** X16.  [mapToStruct] stops at the first tagged field whose number does
    not parse: it returns the parse error with the fields before it already
    written, and it does not look at the fields after it; [ParseQuery]
    then reports 400 "Invalid query parameters". *)
Theorem X16_stops_at_first_bad_number (m : gmap string string)
    (pre post : list main2.StructField) (f : main2.StructField)
    (writes : list main2.Write) (value : string) :
  main2.mapToStruct m pre = Done (writes, None) ->
  main2.sf_query f <> EmptyString ->
  m !! main2.sf_query f = Some value ->
  (reflect.KindOf (main2.sf_Type f) = reflect.Int
   \/ reflect.KindOf (main2.sf_Type f) = reflect.Int64 ->
   strconv.ParseInt value = None ->
   main2.mapToStruct m (pre ++ f :: post)
   = Done (writes, Some (main2.mkNumError "ParseInt" value))
   /\ main2.ParseQuery m (pre ++ f :: post)
      = Done (writes, Some (main2.mkFiberError 400 "Invalid query parameters")))
  /\ (reflect.KindOf (main2.sf_Type f) = reflect.Uint
      \/ reflect.KindOf (main2.sf_Type f) = reflect.Uint64 ->
      strconv.ParseUint value = None ->
      main2.mapToStruct m (pre ++ f :: post)
      = Done (writes, Some (main2.mkNumError "ParseUint" value))
      /\ main2.ParseQuery m (pre ++ f :: post)
         = Done (writes, Some (main2.mkFiberError 400 "Invalid query parameters"))).
Proof.
  intros Hpre Htag Hkey.
  assert (String.eqb (main2.sf_query f) "" = false) as Htag'
    by by apply String.eqb_neq.
  unfold main2.ParseQuery, main2.mapToStruct in *.
  assert (main2.mapToStruct_loop m 0 (pre ++ f :: post) []
          = main2.mapToStruct_loop m (0 + length pre) (f :: post) writes) as ->.
  { by rewrite mapToStruct_loop_app, Hpre. }
  rewrite mapToStruct_loop_cons, Htag', Hkey.
  split; intros [Hk|Hk] Hparse; rewrite Hk, Hparse; done.
Qed.

(** Witness of X16: [name] is written, [page] does not parse, [limit] is
    not reached. *)
Lemma X16_stops_at_first_bad_number_witness :
  main2.mapToStruct {["name" := "Al"; "page" := "two"; "limit" := "x"]}
    ([main2.mkStructField "Name" "name" (reflect.Basic reflect.String) true]
       ++ main2.mkStructField "Page" "page" (reflect.Basic reflect.Int) true
       :: [main2.mkStructField "Limit" "limit" (reflect.Basic reflect.Uint64) true])
  = Done ([(0%nat, VString "Al")], Some (main2.mkNumError "ParseInt" "two")).
Proof.
  refine (proj1 (proj1 (X16_stops_at_first_bad_number
                          {["name" := "Al"; "page" := "two"; "limit" := "x"]}
                          [main2.mkStructField "Name" "name" (reflect.Basic reflect.String) true]
                          [main2.mkStructField "Limit" "limit" (reflect.Basic reflect.Uint64) true]
                          (main2.mkStructField "Page" "page" (reflect.Basic reflect.Int) true)
                          [(0%nat, VString "Al")] "two" eq_refl _ eq_refl)
                   (or_introl eq_refl) eq_refl)).
  discriminate.
Defined.






Example mapToStruct_sample :
  main2.mapToStruct {["name" := "Al"; "page" := "2"; "tags" := "a, b"]}
    [main2.mkStructField "Name" "name" (reflect.Basic reflect.String) true;
     main2.mkStructField "Page" "page" (reflect.Basic reflect.Int) true;
     main2.mkStructField "Tags" "tags"
       (reflect.SliceOf (reflect.Basic reflect.String)) true]
  = Done ([(0%nat, VString "Al"); (1%nat, VInt 2); (2%nat, VStrings ["a"; " b"])],
          None).
Proof. reflexivity. Qed.

(** X18.  With the mock service the handler [GetUser] answers 200, with a
    user holding the identifier and the name "Test User", exactly when the
    route parameter is a decimal literal of a [uint64]; for every other
    parameter (empty, signed, with a blank, too large) it returns the error
    400 "Invalid user ID".  It never answers 404. *)
Theorem X18_get_user_with_mock (param_id : string) :
  main2.GetUser main2.MockUserService_GetUser param_id
  = if uint64_literal param_id
    then main2.HandlerJSON 200 (main2.mkUser (decimal param_id) "Test User" "" [] "")
    else main2.HandlerError (main2.mkFiberError 400 "Invalid user ID").
Proof.
  unfold main2.GetUser. rewrite ParseUint_literal.
  by destruct (uint64_literal param_id).
Qed.

(** X19.  The two message tables agree except on the rules whose wording
    or presence differs: for a field error whose tag is none of "min",
    "max", "unique" and "dive", [getErrorMessage] of main2.go and
    [getValidationMessage] of main.go return the same message. *)
Theorem X19_message_tables_agree (e : FieldError) :
  fe_Tag e <> "min" -> fe_Tag e <> "max" ->
  fe_Tag e <> "unique" -> fe_Tag e <> "dive" ->
  main2.getErrorMessage e = getValidationMessage e.
Proof.
  intros Hmin Hmax Huniq Hdive.
  unfold main2.getErrorMessage, getValidationMessage.
  apply String.eqb_neq in Hmin, Hmax, Huniq, Hdive.
  rewrite Hmin, Hmax, Huniq, Hdive.
  destruct (String.eqb (fe_Tag e) "required"); [done|].
  destruct (String.eqb_spec (fe_Tag e) "email") as [Heq|Hne].
  - by rewrite Heq.
  - done.
Qed.

(** Witness of X19: the rule "in". *)
Lemma X19_message_tables_agree_witness :
  main2.getErrorMessage
    (mkFieldError "in" "user,admin,moderator" reflect.String "Role" (VString "root") "")
  = "Must be one of: user, admin, moderator".
Proof.
  refine (X19_message_tables_agree
            (mkFieldError "in" "user,admin,moderator" reflect.String "Role"
               (VString "root") "") _ _ _ _); discriminate.
Defined.

(** * Further properties of the extraction loop of main.go *)

Lemma Set_frame f v req req' g :
  Set_ f v req = Done req' -> g <> f -> fieldValue g req' = fieldValue g req.
Proof.
  unfold Set_. destruct (CanSet f); [|done]. simpl.
  destruct f, v; try done; intros [= <-] Hg; by destruct g.
Qed.

Lemma setFieldValue_frame f raw cfg req req' err :
  setFieldValue f raw cfg req = Done (req', err) ->
  (forall g, g <> f -> fieldValue g req' = fieldValue g req)
  /\ (err <> None -> req' = req).
Proof.
  assert (forall v, Set_ f v req = Done req' ->
                    forall g, g <> f -> fieldValue g req' = fieldValue g req)
    as Hset by (intros v Hv g Hg; by eapply Set_frame).
  destruct f.
  - intros [= <- <-]. split; [|done]. by apply (Hset (VString raw)).
  - intros [= <- <-]. split; [|done]. by apply (Hset (VString raw)).
  - rewrite setFieldValue_Tags. intros [= <- <-]. split; [|done].
    by apply (Hset (VStrings (strings.TrimSpace <$> strings.Split raw comma))).
  - rewrite setFieldValue_IDs.
    destruct (parse_loop _ _ _) as [e|l]; intros [= <- <-]; [done|].
    split; [|done]. by apply (Hset (VUints l)).
  - unfold setFieldValue. cbn [FieldType reflect.KindOf].
    destruct (strconv.ParseUint raw) as [n|]; intros [= <- <-]; [|done].
    split; [|done]. by apply (Hset (VUint n)).
  - unfold setFieldValue. cbn [FieldType reflect.KindOf].
    destruct (strconv.ParseInt raw) as [n|]; intros [= <- <-]; [|done].
    split; [|done]. by apply (Hset (VInt n)).
  - done.
Qed.

Lemma parseField_frame r cfg req errors req' errors' :
  parseField r cfg (req, errors) = Done (req', errors') ->
  (forall g, FieldByName (FieldName cfg) <> Some g ->
             fieldValue g req' = fieldValue g req)
  /\ (errors' <> errors -> req' = req).
Proof.
  unfold parseField.
  destruct (FieldByName (FieldName cfg)) as [f|]; [|by intros [= <- <-]].
  destruct (getRawValue r cfg) as [raw found]. destruct found; simpl.
  - destruct (setFieldValue f raw cfg req) as [[req1 err]|msg] eqn:Hset; [|done].
    apply setFieldValue_frame in Hset as [Hframe Herr]. simpl.
    destruct err as [msg|]; intros [= <- <-].
    + split; [|by intros _; apply Herr].
      intros g Hg. apply Hframe. congruence.
    + split; [|done]. intros g Hg. apply Hframe. congruence.
  - destruct (Required cfg); by intros [= <- <-].
Qed.

(** X20.  A descriptor only touches its own field: a field of the record
    that no descriptor of the table names has, after the loop, the value it
    had before; from the fresh record of the handler, its zero value. *)
Theorem X20_unnamed_fields_untouched (r : Request)
    (configs : list ValidationConfig) (req req' : GenericRequest)
    (errors errors' : list ValidationError) (g : FieldId) :
  parseFields r configs (req, errors) = Done (req', errors') ->
  Forall (fun cfg => FieldByName (FieldName cfg) <> Some g) configs ->
  fieldValue g req' = fieldValue g req.
Proof.
  intros Hloop Hg. revert req errors Hloop.
  induction Hg as [|cfg configs Hcfg _ IH]; intros req errors.
  - by intros [= <- _].
  - rewrite parseFields_cons.
    destruct (parseField r cfg (req, errors)) as [[req1 errors1]|msg] eqn:Hf;
      [|done].
    simpl. intros Hrest. apply IH in Hrest.
    apply parseField_frame in Hf as [Hframe _].
    rewrite Hrest. by apply Hframe.
Qed.

(** Witness of X20: the search table does not name [Email]. *)
Lemma X20_unnamed_fields_untouched_witness :
  fieldValue F_Email
    (with_Rating 4 (with_Tags ["tech"] (newGenericRequest "search")))
  = fieldValue F_Email (newGenericRequest "search").
Proof.
  refine (X20_unnamed_fields_untouched
            (queryRequest [("Tags", ["tech"]); ("Rating", ["4"]); ("Email", ["x"])] "")
            searchConfigs (newGenericRequest "search")
            (with_Rating 4 (with_Tags ["tech"] (newGenericRequest "search")))
            [] [] F_Email eq_refl _).
  repeat constructor; discriminate.
Defined.

(** X21.  A descriptor that adds an error assigns nothing: whenever the
    loop body returns with more errors than it was given, the record is the
    one it was given.  In particular a list of unsigned integers with a bad
    element is not assigned in part. *)
Theorem X21_error_means_no_assignment (r : Request) (cfg : ValidationConfig)
    (req req' : GenericRequest) (errors errors' : list ValidationError) :
  parseField r cfg (req, errors) = Done (req', errors') ->
  errors' <> errors ->
  req' = req.
Proof. intros Hf. by apply (proj2 (parseField_frame _ _ _ _ _ _ Hf)). Qed.

(** Witness of X21: "1,x" for [IDs]; the first element is not kept. *)
Lemma X21_error_means_no_assignment_witness :
  parseField (queryRequest [("IDs", ["1,x"])] "")
    (mkValidationConfig "IDs" QueryParser false "" "omitempty,unique,dive,min=1")
    (newGenericRequest "update", [])
  = Done (newGenericRequest "update",
          [mkValidationError "IDs" "element 2: must be positive integer" "1,x"])
  /\ IDs (newGenericRequest "update") = [].
Proof.
  split; [reflexivity|].
  refine (f_equal IDs
            (X21_error_means_no_assignment
               (queryRequest [("IDs", ["1,x"])] "")
               (mkValidationConfig "IDs" QueryParser false "" "omitempty,unique,dive,min=1")
               (newGenericRequest "update") (newGenericRequest "update")
               [] [mkValidationError "IDs" "element 2: must be positive integer" "1,x"]
               eq_refl _)).
  discriminate.
Defined.
